(** * Monome Grid serial logger: byte formatter, message decoder, read loop

    A shallow embedding of [src/cli/monome_logger.py].  Byte strings are
    [list byte]; Python [str] values are [string]; the decoder's result
    dictionary is a [gmap string string]; code that can raise runs in the
    small exception monad [py].  The port listing, the whole of
    [log_serial_data] (handshake, loop, handlers and [finally]) and [main]
    are embedded as well, against an environment that supplies what the
    serial port, the clock and the operator do. *)

From Stdlib Require Import NArith Ascii String Strings.Byte.
From Stdlib Require Import DecimalString HexadecimalString.
From stdpp Require Import gmap strings list.

Open Scope string_scope.

(** ** Python primitives used by the logger *)

Module Py.

(** Exceptions the modelled fragment can raise. *)
Inductive exn : Type :=
| IndexError
| KeyError (key : string).

(** A computation either returns a value or raises. *)
Inductive py (A : Type) : Type :=
| Ret (a : A)
| Raise (e : exn).
Arguments Ret {A} a.
Arguments Raise {A} e.

#[export] Instance py_ret : MRet py := fun A a => Ret a.
#[export] Instance py_bind : MBind py := fun A B f m =>
  match m with
  | Ret a => f a
  | Raise e => Raise e
  end.

(** [data[i]] on a bytes object: an int in [0, 255], or [IndexError]. *)
Definition index (data : list byte) (i : nat) : py N :=
  match data !! i with
  | Some b => Ret (Byte.to_N b)
  | None => Raise IndexError
  end.

(** [d[key]] on a dict. *)
Definition getitem (d : gmap string string) (key : string) : py string :=
  match d !! key with
  | Some v => Ret v
  | None => Raise (KeyError key)
  end.

(** [d.get(key, dflt)]. *)
Definition get (d : gmap string string) (key dflt : string) : string :=
  default dflt (d !! key).

(** [str(n)] / [f"{n}"] for a non-negative int. *)
Definition str (n : N) : string :=
  DecimalString.NilZero.string_of_uint (N.to_uint n).

(** [sep.join(parts)]. *)
Definition join (sep : string) (parts : list string) : string :=
  String.concat sep parts.

(** [s.split(sep)] for a one-character separator: the pieces between
    consecutive separators, empty pieces included. *)
Fixpoint split (sep : ascii) (s : string) : list string :=
  match s with
  | EmptyString => [EmptyString]
  | String c s' =>
      if Ascii.eqb c sep then EmptyString :: split sep s'
      else match split sep s' with
           | [] => [String c EmptyString]
           | w :: ws => String c w :: ws
           end
  end.

(** [s[i:j]] for [0 <= i <= j]; out-of-range bounds are clamped. *)
Definition slice (s : string) (i j : nat) : string :=
  String.substring i (j - i) s.

(** [range(0, stop, 2)]. *)
Definition range_by_2 (stop : nat) : list nat :=
  map (Nat.mul 2) (seq 0 (Nat.div2 (stop + 1))).

Fixpoint map_chars (f : ascii -> ascii) (s : string) : string :=
  match s with
  | EmptyString => EmptyString
  | String c s' => String (f c) (map_chars f s')
  end.

Definition to_upper (c : ascii) : ascii :=
  let n := N_of_ascii c in
  if (97 <=? n)%N && (n <=? 122)%N then ascii_of_N (n - 32) else c.

(** Left-pad with ['0'] up to [width] characters. *)
Definition zero_pad (width : nat) (s : string) : string :=
  String.concat "" (replicate (width - String.length s) "0") +:+ s.

(** [f"{n:02X}"]: uppercase hexadecimal, zero-filled to width 2. *)
Definition format_02X (n : N) : string :=
  zero_pad 2
    (map_chars to_upper
       (HexadecimalString.NilZero.string_of_uint (N.to_hex_uint n))).

(** The digit table of [binascii.hexlify]. *)
Definition hexdigits : string := "0123456789abcdef".

Definition hexdigit (d : N) : ascii :=
  default "0"%char (String.get (N.to_nat d) hexdigits).

(** [binascii.hexlify(data).decode('ascii')]: two lowercase digits per
    byte, high nibble first. *)
Definition hexlify_byte (b : byte) : string :=
  String (hexdigit (N.shiftr (Byte.to_N b) 4))
    (String (hexdigit (N.land (Byte.to_N b) 15)) EmptyString).

Fixpoint hexlify (data : list byte) : string :=
  match data with
  | [] => EmptyString
  | b :: rest => hexlify_byte b +:+ hexlify rest
  end.

(** [chr(b)] for a byte value. *)
Definition chr (b : byte) : ascii := ascii_of_byte b.

(** [bytes.decode('ascii', errors='ignore')]: bytes above 0x7F vanish. *)
Fixpoint decode_ascii_ignore (data : list byte) : string :=
  match data with
  | [] => EmptyString
  | b :: rest =>
      if (Byte.to_N b <? 128)%N then String (chr b) (decode_ascii_ignore rest)
      else decode_ascii_ignore rest
  end.

(** [str.isspace] restricted to ASCII: TAB, LF, VT, FF, CR, the four
    separators FS, GS, RS, US, and the blank. *)
Definition isspace (c : ascii) : bool :=
  let n := N_of_ascii c in
  ((9 <=? n)%N && (n <=? 13)%N) || ((28 <=? n)%N && (n <=? 32)%N).

Fixpoint lstrip (s : string) : string :=
  match s with
  | EmptyString => EmptyString
  | String c s' => if isspace c then lstrip s' else s
  end.

Fixpoint rstrip (s : string) : string :=
  match s with
  | EmptyString => EmptyString
  | String c s' =>
      match rstrip s' with
      | EmptyString => if isspace c then EmptyString else String c EmptyString
      | t => String c t
      end
  end.

(** [s.strip()]. *)
Definition strip (s : string) : string := rstrip (lstrip s).

Definition backslash : ascii := ascii_of_N 92.
Definition single_quote : ascii := ascii_of_N 39.
Definition double_quote : ascii := ascii_of_N 34.

(** One byte of [repr(data)] inside the chosen quotes. *)
Definition repr_byte (quote : ascii) (b : byte) : string :=
  let c := chr b in
  let n := Byte.to_N b in
  if Ascii.eqb c quote || Ascii.eqb c backslash
  then String backslash (String c EmptyString)
  else if (n =? 9)%N then String backslash "t"
  else if (n =? 10)%N then String backslash "n"
  else if (n =? 13)%N then String backslash "r"
  else if (n <? 32)%N || (127 <=? n)%N
  then String backslash
         (String "x" (String (hexdigit (N.shiftr n 4))
                        (String (hexdigit (N.land n 15)) EmptyString)))
  else String c EmptyString.

(** [repr(data)] / [f"{data}"] for a bytes object: single quotes unless
    the data holds a single quote and no double quote. *)
Definition repr_bytes (data : list byte) : string :=
  let has q := existsb (fun b => Ascii.eqb (chr b) q) data in
  let quote :=
    if has single_quote && negb (has double_quote)
    then double_quote else single_quote in
  String "b" (String quote
    (String.concat "" (map (repr_byte quote) data) +:+ String quote "")).

End Py.
Import Py.

(** ** ANSI colour codes *)

Definition ESC : ascii := ascii_of_N 27.

Definition GREEN : string := String ESC "[32m".
Definition YELLOW : string := String ESC "[33m".
Definition BLUE : string := String ESC "[34m".
Definition MAGENTA : string := String ESC "[35m".
Definition CYAN : string := String ESC "[36m".
Definition RESET : string := String ESC "[0m".
Definition BOLD : string := String ESC "[1m".

(** ** [format_bytes] *)

(** The comprehension [[hex_data[i:i+2] for i in range(0, len(hex_data), 2)]]. *)
Definition hex_pairs (hex_data : string) : list string :=
  map (fun i => slice hex_data i (i + 2)) (range_by_2 (String.length hex_data)).

(** One turn of the [for b in data] loop that builds [readable]. *)
Definition readable_step (readable : string) (b : byte) : string :=
  if (32 <=? Byte.to_N b)%N && (Byte.to_N b <=? 126)%N
  then readable +:+ String (chr b) EmptyString
  else readable +:+ ".".

Definition format_bytes (data : list byte) : string * string :=
  let hex_data := hexlify data in
  let pairs := hex_pairs hex_data in
  let readable := fold_left readable_step data EmptyString in
  let hex_formatted := join " " pairs in
  (hex_formatted, readable).

(** ** [decode_monome_message] *)

(** The dictionary literal the decoder starts from. *)
Definition initial_result (data : list byte) (message_type : N)
  : gmap string string :=
  <["decoded" := "Unknown"]>
    (<["type" := "0x" +:+ format_02X message_type]>
       (<["raw_hex" := join " " (map (fun b => format_02X (Byte.to_N b)) data)]>
          ∅)).

(** [result["decoded"] = decoded; result["color"] = color]. *)
Definition classify (result : gmap string string) (decoded color : string)
  : gmap string string :=
  <["color" := color]> (<["decoded" := decoded]> result).

(** The guard of the System-Query-Response branch; [and] short-circuits, so
    [data[1]] is read only once the length test has passed. *)
Definition system_query_guard (data : list byte) (message_type : N) : py bool :=
  if (message_type =? 0x00)%N && (3 <=? length data)%nat
  then d1 ← index data 1; mret (d1 <=? 15)%N
  else mret false.

Definition decode_monome_message (data : list byte)
  : py (option (gmap string string)) :=
  if bool_decide (data = []) || (length data <? 1)%nat then mret None else
  message_type ← index data 0;
  let result := initial_result data message_type in
  if (message_type =? 0x00)%N && (3 <=? length data)%nat then
    d1 ← index data 1; d2 ← index data 2;
    mret (Some (classify result
      ("Key UP at (" +:+ str d1 +:+ ", " +:+ str d2 +:+ ")") CYAN))
  else if (message_type =? 0x01)%N && (3 <=? length data)%nat then
    d1 ← index data 1; d2 ← index data 2;
    mret (Some (classify result
      ("Key DOWN at (" +:+ str d1 +:+ ", " +:+ str d2 +:+ ")") MAGENTA))
  else if (message_type =? 0x20)%N && (3 <=? length data)%nat then
    d1 ← index data 1; d2 ← index data 2;
    mret (Some (classify result
      ("Key UP at (" +:+ str d1 +:+ ", " +:+ str d2 +:+ ") [Alt code]") CYAN))
  else if (message_type =? 0x21)%N && (3 <=? length data)%nat then
    d1 ← index data 1; d2 ← index data 2;
    mret (Some (classify result
      ("Key DOWN at (" +:+ str d1 +:+ ", " +:+ str d2 +:+ ") [Alt code]") MAGENTA))
  else
  is_system_query ← system_query_guard data message_type;
  if (is_system_query : bool) then
    d1 ← index data 1; d2 ← index data 2;
    mret (Some (classify result
      ("System Query Response: Section " +:+ str d1 +:+ ", Count " +:+ str d2)
      BLUE))
  else if (message_type =? 0x01)%N && (1 <? length data)%nat then
    let device_id := strip (decode_ascii_ignore (drop 1 data)) in
    mret (Some (classify result ("Device ID: " +:+ device_id) GREEN))
  else if (message_type =? 0x03)%N && (3 <=? length data)%nat then
    d1 ← index data 1; d2 ← index data 2;
    mret (Some (classify result
      ("Grid Size: " +:+ str d1 +:+ "x" +:+ str d2) YELLOW))
  else mret (Some result).

(** The seven branch conditions of the decoder, in source order, as
    predicates on the frame. *)
Definition opcode_is (data : list byte) (code : N) : bool :=
  match data with
  | [] => false
  | b :: _ => (Byte.to_N b =? code)%N
  end.

Definition second_at_most (data : list byte) (bound : N) : bool :=
  match data !! 1%nat with
  | Some b => (Byte.to_N b <=? bound)%N
  | None => false
  end.

Definition rule1 (data : list byte) : bool :=
  opcode_is data 0x00 && (3 <=? length data)%nat.
Definition rule2 (data : list byte) : bool :=
  opcode_is data 0x01 && (3 <=? length data)%nat.
Definition rule3 (data : list byte) : bool :=
  opcode_is data 0x20 && (3 <=? length data)%nat.
Definition rule4 (data : list byte) : bool :=
  opcode_is data 0x21 && (3 <=? length data)%nat.
Definition rule5 (data : list byte) : bool :=
  opcode_is data 0x00 && (3 <=? length data)%nat && second_at_most data 15.
Definition rule6 (data : list byte) : bool :=
  opcode_is data 0x01 && (1 <? length data)%nat.
Definition rule7 (data : list byte) : bool :=
  opcode_is data 0x03 && (3 <=? length data)%nat.

(** ** The read loop of [log_serial_data] *)

(** What one turn of [while True] observes of the outside world: the value
    of [ser.in_waiting], the bytes [ser.read] then returns, and the
    formatted wall-clock time. *)
Record poll : Type := Poll {
  in_waiting : N;
  chunk : list byte;
  timestamp : string
}.

(** The two output sinks: lines printed, and strings written to the log
    file when one is open. *)
Record sinks : Type := Sinks {
  console : list string;
  log_f : option (list string)
}.

(** The [if hex_mode: ... elif interpret: ... else: ...] block computing
    [output]. *)
Definition render (hex_mode interpret : bool) (timestamp : string)
    (data : list byte) : py string :=
  if hex_mode then
    let '(hex_data, ascii_data) := format_bytes data in
    mret ("[" +:+ timestamp +:+ "] HEX: " +:+ hex_data
            +:+ " | ASCII: " +:+ ascii_data)
  else if interpret then
    message ← decode_monome_message data;
    match message with
    | Some m =>
        if bool_decide (m = ∅) then
          let '(hex_data, _) := format_bytes data in
          mret ("[" +:+ timestamp +:+ "] Raw data: " +:+ hex_data)
        else
          let color := get m "color" RESET in
          decoded ← getitem m "decoded";
          raw_hex ← getitem m "raw_hex";
          mret ("[" +:+ timestamp +:+ "] " +:+ color +:+ decoded +:+ RESET
                  +:+ " [" +:+ raw_hex +:+ "]")
    | None =>
        let '(hex_data, _) := format_bytes data in
        mret ("[" +:+ timestamp +:+ "] Raw data: " +:+ hex_data)
    end
  else mret ("[" +:+ timestamp +:+ "] " +:+ repr_bytes data).

(** [print(output)], then [log_f.write(output + "\n")] when logging. *)
Definition emit (output : string) (s : sinks) : sinks :=
  {| console := (console s ++ [output])%list;
     log_f := (fun written : list string =>
                 (written ++ [output +:+ String (ascii_of_N 10) ""])%list)
                <$> log_f s |}.

(** The body of the [while True] loop. *)
Definition loop_body (hex_mode interpret : bool) (p : poll) (s : sinks)
  : py sinks :=
  if (0 <? in_waiting p)%N then
    let data := chunk p in
    if negb (bool_decide (data = [])) then
      output ← render hex_mode interpret (timestamp p) data;
      mret (emit output s)
    else mret s
  else mret s.

(** The loop run over a finite sequence of polls. *)
Fixpoint read_loop (hex_mode interpret : bool) (polls : list poll) (s : sinks)
  : py sinks :=
  match polls with
  | [] => mret s
  | p :: rest =>
      s' ← loop_body hex_mode interpret p s;
      read_loop hex_mode interpret rest s'
  end.

(** The rendering of a decoded message in interpret mode. *)
Definition interpreted_line (timestamp : string) (m : gmap string string)
  : string :=
  "[" +:+ timestamp +:+ "] " +:+ get m "color" RESET
    +:+ default "" (m !! "decoded") +:+ RESET
    +:+ " [" +:+ default "" (m !! "raw_hex") +:+ "]".

(** ** Specification vocabulary *)

(** The value of a hexadecimal digit written in the given letter case
    ([upper = true]: [0-9A-F]; [upper = false]: [0-9a-f]). *)
Definition hex_value (upper : bool) (c : ascii) : option N :=
  let n := N_of_ascii c in
  if (48 <=? n)%N && (n <=? 57)%N then Some (n - 48)%N
  else if upper
       then (if (65 <=? n)%N && (n <=? 70)%N then Some (n - 55)%N else None)
       else (if (97 <=? n)%N && (n <=? 102)%N then Some (n - 87)%N else None).

(** The byte value denoted by a string of exactly two hex digits. *)
Definition octet_value (upper : bool) (s : string) : option N :=
  match s with
  | String h (String l EmptyString) =>
      match hex_value upper h, hex_value upper l with
      | Some a, Some b => Some (16 * a + b)%N
      | _, _ => None
      end
  | _ => None
  end.

(** [s] writes [data] as two-digit octets in order, one blank between
    neighbours. *)
Definition hex_rendering (upper : bool) (data : list byte) (s : string) : Prop :=
  exists octets : list string,
    s = join " " octets /\
    Forall2 (fun o b => octet_value upper o = Some (Byte.to_N b)) octets data.

(** The ASCII shadow of one byte. *)
Definition shadow (b : byte) : ascii :=
  if (0x20 <=? Byte.to_N b)%N && (Byte.to_N b <=? 0x7E)%N
  then ascii_of_N (Byte.to_N b) else "."%char.

(** [c] does not occur in [s]. *)
Fixpoint lacks (c : ascii) (s : string) : bool :=
  match s with
  | EmptyString => true
  | String a s' => negb (Ascii.eqb a c) && lacks c s'
  end.

(** [line] is what the hex-only fallback of interpret mode would print at
    time [timestamp]. *)
Definition raw_data_line (timestamp line : string) : Prop :=
  exists hex_data, line = "[" +:+ timestamp +:+ "] Raw data: " +:+ hex_data.

(** What [emit] appends to an open log file for the given console lines. *)
Definition logged (lines : list string) : list string :=
  map (fun line => line +:+ String (ascii_of_N 10) "") lines.

(** ** [list_serial_ports] *)

(** What the loop reads of one entry of [serial.tools.list_ports.comports()]. *)
Record port_info : Type := PortInfo {
  device : string;
  description : string;
  vid : option N;
  pid : option N
}.

(** [f"{n:04X}"]: uppercase hexadecimal, zero-filled to width 4. *)
Definition format_04X (n : N) : string :=
  zero_pad 4
    (map_chars to_upper
       (HexadecimalString.NilZero.string_of_uint (N.to_hex_uint n))).

(** The conditional expression computing [vid_pid]; [None] stands for the
    [TypeError] that formatting a missing [pid] with [04X] raises. *)
Definition vid_pid (port : port_info) : option string :=
  match vid port with
  | None => Some "None"
  | Some v =>
      if (v =? 0)%N then Some "None"
      else match pid port with
           | Some q => Some (format_04X v +:+ ":" +:+ format_04X q)
           | None => None
           end
  end.

(** The line printed for entry [i] of [enumerate(ports)]. *)
Definition port_line (i : nat) (port : port_info) (vid_pid : string) : string :=
  str (N.of_nat i + 1) +:+ ". " +:+ GREEN +:+ device port +:+ RESET
    +:+ " - " +:+ description port +:+ " [VID:PID=" +:+ vid_pid +:+ "]".

(** How a listing ends: normally, or with a [TypeError]; either way with the
    lines printed up to that point. *)
Inductive listing : Type :=
| Printed (lines : list string)
| TypeError (lines : list string).

(** The [for i, port in enumerate(ports)] loop, from index [i] on. *)
Fixpoint print_ports (i : nat) (ports : list port_info) (printed : list string)
  : listing :=
  match ports with
  | [] => Printed printed
  | port :: rest =>
      match vid_pid port with
      | Some vp => print_ports (S i) rest (printed ++ [port_line i port vp])%list
      | None => TypeError printed
      end
  end.

Definition list_serial_ports (ports : list port_info) : listing :=
  if bool_decide (ports = [])
  then Printed [YELLOW +:+ "No serial ports detected." +:+ RESET]
  else print_ports 0 ports [BOLD +:+ "Available serial ports:" +:+ RESET].

(** An entry the listing can print: no (or zero) vendor id, or a product id
    to go with it. *)
Definition listable (port : port_info) : bool :=
  match vid port, pid port with
  | Some v, None => (v =? 0)%N
  | _, _ => true
  end.


(** The lines the listing prints for [ports], numbered from [i]. *)
Fixpoint port_lines (i : nat) (ports : list port_info) : list string :=
  match ports with
  | [] => []
  | port :: rest =>
      port_line i port (default "" (vid_pid port)) :: port_lines (S i) rest
  end.



(** ** [log_serial_data] as a whole *)

(** The [try] body is run statement by statement.  Each statement has its
    effect on what the process has printed, sent to the port, and written
    to the log; one statement, chosen by the environment, raises instead of
    taking effect. *)
Inductive stmt : Type :=
| Connect                   (* ser = serial.Serial(port, ...) *)
| Say (line : string)       (* print(line) *)
| LogOpen                   (* log_f = open(log_file, 'w') *)
| LogWrite (text : string)  (* log_f.write(text) *)
| Send (data : list byte)   (* ser.write(data) *)
| Pause                     (* time.sleep, log_f.flush, ser.in_waiting,
                               ser.read, datetime.now *)
| Fail.                     (* a statement that raises of its own *)

(** What can be raised in the [try] body: the two exceptions the function
    handles, and any other. *)
Inductive exc : Type :=
| SerialException (message : string)
| KeyboardInterrupt
| OtherException.

(** The observable state: lines printed, byte strings written to the
    port, whether [ser] is bound and open, the content of the log file when
    [log_f] is a file object, and whether that file is open. *)
Record process : Type := Process {
  stdout : list string;
  sent : list (list byte);
  ser_open : option bool;
  logfile : option (list string);
  logfile_open : bool
}.

Definition start : process := Process [] [] None None false.

Definition NL : string := String (ascii_of_N 10) "".

Definition exec (c : stmt) (st : process) : process :=
  match c with
  | Connect =>
      Process (stdout st) (sent st) (Some true) (logfile st) (logfile_open st)
  | Say line =>
      Process (stdout st ++ [line]) (sent st) (ser_open st) (logfile st)
        (logfile_open st)
  | LogOpen => Process (stdout st) (sent st) (ser_open st) (Some []) true
  | LogWrite text =>
      Process (stdout st) (sent st) (ser_open st)
        ((fun written : list string => (written ++ [text])%list) <$> logfile st)
        (logfile_open st)
  | Send data =>
      Process (stdout st) (sent st ++ [data]) (ser_open st) (logfile st)
        (logfile_open st)
  | Pause | Fail => st
  end.

(** Run the statements in order; statement number [fault] raises [e]
    instead of running.  The result is the exception raised, if any, and
    the state reached. *)
Fixpoint try_body (prog : list stmt) (fault : nat) (e : exc) (st : process)
  : option exc * process :=
  match prog with
  | [] => (None, st)
  | c :: rest =>
      match fault with
      | O => (Some e, st)
      | S fault' =>
          match c with
          | Fail => (Some OtherException, st)
          | _ => try_body rest fault' e (exec c st)
          end
      end
  end.

(** How the call ends: it returns, an exception leaves it, or (no
    statement of the given finite run raised) the loop is still going. *)
Inductive outcome : Type := Returned | Propagated | Running.

(** The two [except] clauses. *)
Definition handle (e : exc) (st : process) : outcome * process :=
  match e with
  | SerialException message =>
      (Returned,
       exec (Say (YELLOW +:+ "Error opening serial port: " +:+ message
                    +:+ RESET)) st)
  | KeyboardInterrupt =>
      (Returned,
       exec (Say (NL +:+ GREEN +:+ "Logging stopped by user" +:+ RESET)) st)
  | OtherException => (Propagated, st)
  end.

(** The [finally] clause. *)
Definition finally (st : process) : process :=
  let st1 :=
    match ser_open st with
    | Some true =>
        exec (Say (GREEN +:+ "Serial port closed" +:+ RESET))
          (Process (stdout st) (sent st) (Some false) (logfile st)
             (logfile_open st))
    | _ => st
    end in
  match logfile st1 with
  | Some _ =>
      exec (Say (GREEN +:+ "Log file closed" +:+ RESET))
        (Process (stdout st1) (sent st1) (ser_open st1) (logfile st1) false)
  | None => st1
  end.

(** [str(n)] for a Python int. *)
Definition str_int (z : Z) : string :=
  match z with
  | Zneg p => "-" +:+ str (Npos p)
  | _ => str (Z.to_N z)
  end.

(** Truth value of an optional string argument ([None] and [""] are false). *)
Definition given (a : option string) : bool :=
  match a with
  | Some (String _ _) => true
  | _ => false
  end.

(** The statements from the top of the [try] block down to the loop. *)
Definition preamble (port : string) (baud_rate : Z) (log_file : option string)
    (started : string) : list stmt :=
  [Connect;
   Say (GREEN +:+ "Connected to " +:+ port +:+ " at " +:+ str_int baud_rate
          +:+ " baud" +:+ RESET);
   Say ("Press Ctrl+C to exit" +:+ NL)]
  ++ (if given log_file
      then [LogOpen;
            LogWrite ("Monome Grid Serial Log - Started at " +:+ started +:+ NL);
            LogWrite ("Port: " +:+ port +:+ ", Baud Rate: "
                        +:+ str_int baud_rate +:+ NL +:+ NL);
            Pause]
      else [])
  ++ [Say (YELLOW +:+ "Sending system query command (0x00)..." +:+ RESET);
      Send [x00]; Pause;
      Say (YELLOW +:+ "Sending device ID query (0x01)..." +:+ RESET);
      Send [x01]; Pause;
      Say (YELLOW +:+ "Sending grid size query (0x05)..." +:+ RESET);
      Send [x05]; Pause;
      Say (YELLOW +:+ "Sending key grid enable commands..." +:+ RESET);
      Send [x20; x01]; Pause;
      Send [x21; x01]; Pause;
      Send [x00; x01]; Pause;
      Send [x01; x01]; Pause;
      Say (GREEN +:+ "Ready to receive data. Press buttons on your grid..."
             +:+ RESET +:+ NL)].

(** One turn of [while True]. *)
Definition iteration (hex_mode interpret logging : bool) (p : poll)
  : list stmt :=
  Pause ::
  (if (0 <? in_waiting p)%N then
     Pause ::
     (if negb (bool_decide (chunk p = [])) then
        Pause ::
        match render hex_mode interpret (timestamp p) (chunk p) with
        | Ret output =>
            Say output ::
            (if logging then [LogWrite (output +:+ NL); Pause] else [])
        | Raise _ => [Fail]
        end
      else [])
   else [])
  ++ [Pause].

(** The call [log_serial_data(port, baud_rate, log_file, hex_mode,
    interpret)] against an environment that supplies the start time, the
    polls of the loop, and the statement that raises and what it raises. *)
Definition log_serial_data (port : string) (baud_rate : Z)
    (log_file : option string) (hex_mode interpret : bool)
    (started : string) (polls : list poll) (fault : nat) (e : exc)
  : outcome * process :=
  let prog :=
    (preamble port baud_rate log_file started
     ++ concat (map (iteration hex_mode interpret (given log_file)) polls))%list
  in
  match try_body prog fault e start with
  | (Some raised, st) =>
      let '(result, st') := handle raised st in (result, finally st')
  | (None, st) => (Running, st)
  end.

(** The seven byte strings of the handshake, in the order they are sent. *)
Definition handshake : list (list byte) :=
  [[x00]; [x01]; [x05]; [x20; x01]; [x21; x01]; [x00; x01]; [x01; x01]].

(** ** [main] *)

(** The parsed command line ([args.port], [args.baud], [args.list],
    [args.output], [args.hex], [args.raw]). *)
Record arguments : Type := Arguments {
  args_port : option string;
  args_baud : Z;
  args_list : bool;
  args_output : option string;
  args_hex : bool;
  args_raw : bool
}.

(** A call of [list_serial_ports] seen as a process: what it printed, and
    whether it returned or let its [TypeError] out. *)
Definition listed (l : listing) : outcome * process :=
  match l with
  | Printed lines => (Returned, Process lines [] None None false)
  | TypeError lines => (Propagated, Process lines [] None None false)
  end.

(** [main()], given the parsed arguments, the ports [comports()] reports
    and the environment of a logging run. *)
Definition main (args : arguments) (ports : list port_info)
    (started : string) (polls : list poll) (fault : nat) (e : exc)
  : outcome * process :=
  if args_list args then listed (list_serial_ports ports)
  else if negb (given (args_port args)) then
    match listed (list_serial_ports ports) with
    | (Returned, st) =>
        (Returned,
         exec (Say (NL +:+ YELLOW
                      +:+ "Error: No serial port specified. Use -p/--port to specify a port."
                      +:+ RESET)) st)
    | stopped => stopped
    end
  else
    log_serial_data (default "" (args_port args)) (args_baud args)
      (args_output args) (args_hex args) (negb (args_raw args))
      started polls fault e.

(** ** Vocabulary for whole runs *)

(** The state after running all of [prog]. *)
Definition execs (prog : list stmt) (st : process) : process :=
  fold_left (fun st c => exec c st) prog st.

(** The lines a statement sequence prints, the byte strings it sends and
    the texts it writes to the log, in order. *)
Definition says (prog : list stmt) : list string :=
  omap (fun c => match c with Say line => Some line | _ => None end) prog.

Definition sends (prog : list stmt) : list (list byte) :=
  omap (fun c => match c with Send data => Some data | _ => None end) prog.

Definition writes (prog : list stmt) : list string :=
  omap (fun c => match c with LogWrite text => Some text | _ => None end) prog.

(** What is printed after the [try] body has raised [e] with the port open
    and, as [logging] says, the log file open. *)
Definition closing_lines (e : exc) (logging : bool) : list string :=
  (match e with
   | SerialException message =>
       [YELLOW +:+ "Error opening serial port: " +:+ message +:+ RESET]
   | KeyboardInterrupt =>
       [NL +:+ GREEN +:+ "Logging stopped by user" +:+ RESET]
   | OtherException => []
   end
   ++ [GREEN +:+ "Serial port closed" +:+ RESET]
   ++ (if logging then [GREEN +:+ "Log file closed" +:+ RESET] else []))%list.

(** The log holds every line said, or every line but the last. *)
Definition lagging (t : list stmt) : Prop :=
  writes t = logged (says t) \/
  exists lines last, says t = (lines ++ [last])%list /\ writes t = logged lines.

(** ** Vocabulary for the further properties *)

(** A printable ASCII character, [0x20 .. 0x7E]. *)
Definition printable (c : ascii) : bool :=
  (32 <=? N_of_ascii c)%N && (N_of_ascii c <=? 126)%N.

Fixpoint all_chars (P : ascii -> bool) (s : string) : bool :=
  match s with
  | EmptyString => true
  | String c s' => P c && all_chars P s'
  end.

(** Reading a spaced hex string back into bytes: the empty string is the
    empty sequence, otherwise every piece between blanks must be a two-digit
    octet in the given letter case. *)
Definition parse_octets (upper : bool) (s : string) : option (list byte) :=
  if String.eqb s "" then Some []
  else mapM (fun o => octet_value upper o ≫= Byte.of_N) (split " " s).

(** A poll that makes the loop body produce output: bytes are waiting and
    the read returned some. *)
Definition active (p : poll) : bool :=
  (0 <? in_waiting p)%N && negb (bool_decide (chunk p = [])).

Example format_bytes_sample :
  format_bytes [x00; x41; xab; x7e; x7f] = ("00 41 ab 7e 7f", ".A.~.").
Proof. reflexivity. Qed.

Example format_02X_sample :
  map format_02X [0; 10; 171; 255]%N = ["00"; "0A"; "AB"; "FF"].
Proof. reflexivity. Qed.

Example strip_sample :
  strip (decode_ascii_ignore [x20; x09; x41; x80; x20; x42; x1f; x0a]) = "A B".
Proof. reflexivity. Qed.

Example split_sample :
  split " " "00 41 ab" = ["00"; "41"; "ab"] /\ split " " "" = [""] /\
  split " " " a " = [""; "a"; ""].
Proof. repeat split. Qed.

Example decode_sample :
  decode_monome_message [x21; x03; x04] =
  Ret (Some (<["color" := MAGENTA]>
    (<["decoded" := "Key DOWN at (3, 4) [Alt code]"]>
    (<["type" := "0x21"]> (<["raw_hex" := "21 03 04"]> ∅))))).
Proof. vm_compute. reflexivity. Qed.

Example repr_bytes_sample :
  repr_bytes [x00; x41; x0a; x27; x80] =
  String "b" (String double_quote
    ("\x00A\n'\x80" +:+ String double_quote "")).
Proof. reflexivity. Qed.

Example repr_bytes_quotes :
  repr_bytes [x27; x22; x5c; x09; x0d; x7f; x7e] =
  "b'\'" +:+ String double_quote "\\\t\r\x7f~'".
Proof. reflexivity. Qed.

Example hex_pairs_odd : hex_pairs "abcde" = ["ab"; "cd"; "e"].
Proof. reflexivity. Qed.

Example list_serial_ports_sample :
  list_serial_ports
    [PortInfo "/dev/ttyUSB0" "FT232R" (Some 0x0403%N) (Some 0x6001%N);
     PortInfo "/dev/ttyS0" "n/a" None None] =
  Printed
    [BOLD +:+ "Available serial ports:" +:+ RESET;
     "1. " +:+ GREEN +:+ "/dev/ttyUSB0" +:+ RESET
       +:+ " - FT232R [VID:PID=0403:6001]";
     "2. " +:+ GREEN +:+ "/dev/ttyS0" +:+ RESET +:+ " - n/a [VID:PID=None]"].
Proof. reflexivity. Qed.

Example log_serial_data_interrupted :
  log_serial_data "/dev/ttyUSB0" 115200 (Some "grid.log") false true
    "2024-01-01 12:00:00" [Poll 3 [x03; x10; x08] "12:00:01.000"] 30
    KeyboardInterrupt =
  (Returned,
   Process
     [GREEN +:+ "Connected to /dev/ttyUSB0 at 115200 baud" +:+ RESET;
      "Press Ctrl+C to exit" +:+ NL;
      YELLOW +:+ "Sending system query command (0x00)..." +:+ RESET;
      YELLOW +:+ "Sending device ID query (0x01)..." +:+ RESET;
      YELLOW +:+ "Sending grid size query (0x05)..." +:+ RESET;
      YELLOW +:+ "Sending key grid enable commands..." +:+ RESET;
      GREEN +:+ "Ready to receive data. Press buttons on your grid..."
        +:+ RESET +:+ NL;
      "[12:00:01.000] " +:+ YELLOW +:+ "Grid Size: 16x8" +:+ RESET
        +:+ " [03 10 08]";
      NL +:+ GREEN +:+ "Logging stopped by user" +:+ RESET;
      GREEN +:+ "Serial port closed" +:+ RESET;
      GREEN +:+ "Log file closed" +:+ RESET]
     handshake (Some false)
     (Some ["Monome Grid Serial Log - Started at 2024-01-01 12:00:00" +:+ NL;
            "Port: /dev/ttyUSB0, Baud Rate: 115200" +:+ NL +:+ NL])
     false).
Proof. vm_compute. reflexivity. Qed.

Example render_sample :
  render false true "12:00:00.000" [x03; x10; x08] =
  Ret ("[12:00:00.000] " +:+ YELLOW +:+ "Grid Size: 16x8" +:+ RESET
         +:+ " [03 10 08]").
Proof. vm_compute. reflexivity. Qed.

(** ** Strings *)

Lemma append_nil_l (s : string) : "" +:+ s = s.
Proof. reflexivity. Qed.

Lemma append_cons (c : ascii) (s t : string) :
  String c s +:+ t = String c (s +:+ t).
Proof. reflexivity. Qed.

Ltac string_induction s :=
  induction s as [|? s ?]; rewrite ?append_nil_l, ?append_cons; cbn.

Lemma append_nil_r (s : string) : s +:+ "" = s.
Proof. string_induction s; congruence. Qed.

Lemma append_assoc (s t u : string) : (s +:+ t) +:+ u = s +:+ (t +:+ u).
Proof. string_induction s; congruence. Qed.

Lemma append_inv_l (p s t : string) : p +:+ s = p +:+ t -> s = t.
Proof. string_induction p; [done | intros [= H]; auto]. Qed.

Lemma length_append (s t : string) :
  String.length (s +:+ t) = (String.length s + String.length t)%nat.
Proof. string_induction s; congruence. Qed.

Lemma get_string_of_list (l : list ascii) (i : nat) :
  String.get i (string_of_list_ascii l) = l !! i.
Proof.
  revert i; induction l as [|c l IH]; intros [|i]; cbn; auto.
Qed.

Lemma length_string_of_list (l : list ascii) :
  String.length (string_of_list_ascii l) = length l.
Proof. induction l as [|c l IH]; cbn; [done | by rewrite IH]. Qed.

(** ** The formatter's ASCII shadow *)

Lemma chr_ascii_of_N (b : byte) : chr b = ascii_of_N (Byte.to_N b).
Proof. by destruct b. Qed.

Lemma readable_step_shadow (readable : string) (b : byte) :
  readable_step readable b = readable +:+ String (shadow b) "".
Proof.
  unfold readable_step, shadow. rewrite chr_ascii_of_N.
  by destruct (_ && _).
Qed.

Lemma fold_readable (data : list byte) (acc : string) :
  fold_left readable_step data acc =
  acc +:+ string_of_list_ascii (map shadow data).
Proof.
  revert acc; induction data as [|b data IH]; intros acc; cbn.
  - by rewrite append_nil_r.
  - by rewrite IH, readable_step_shadow, append_assoc.
Qed.

Lemma readable_shadow (data : list byte) :
  snd (format_bytes data) = string_of_list_ascii (map shadow data).
Proof. unfold format_bytes; cbn. by rewrite fold_readable. Qed.

(** C6. For every byte sequence the ASCII shadow returned by [format_bytes]
    is as long as the input, and its character at each index is the byte's
    own ASCII character when the byte lies in [0x20, 0x7E] and the
    placeholder ['.'] otherwise. *)
Theorem ascii_shadow_pointwise (data : list byte) :
  String.length (snd (format_bytes data)) = length data /\
  forall i : nat,
    String.get i (snd (format_bytes data)) = shadow <$> data !! i.
Proof.
  rewrite readable_shadow. split.
  - by rewrite length_string_of_list, length_map.
  - intros i. by rewrite get_string_of_list, list_lookup_fmap.
Qed.

(** ** The formatter's hex string *)

Lemma length_hexlify (data : list byte) :
  String.length (hexlify data) = (2 * length data)%nat.
Proof.
  induction data as [|b data IH]; [done|].
  cbn [hexlify length]. unfold hexlify_byte.
  rewrite !append_cons, append_nil_l. cbn [String.length]. lia.
Qed.

Lemma range_by_2_even (n : nat) :
  range_by_2 (2 * n) = map (Nat.mul 2) (seq 0 n).
Proof.
  unfold range_by_2. do 2 f_equal.
  replace (2 * n + 1)%nat with (S (2 * n)) by lia.
  apply Nat.div2_succ_double.
Qed.

Lemma substring_skip_pair (a c : ascii) (s : string) (k m : nat) :
  String.substring (2 * S k) m (String a (String c s)) =
  String.substring (2 * k) m s.
Proof. by replace (2 * S k)%nat with (S (S (2 * k))) by lia. Qed.

Lemma hex_pairs_hexlify (data : list byte) :
  hex_pairs (hexlify data) = map hexlify_byte data.
Proof.
  unfold hex_pairs. rewrite length_hexlify, range_by_2_even, map_map.
  induction data as [|b data IH]; [done|].
  cbn [length seq map]. f_equal.
  - cbn [hexlify]; unfold slice, hexlify_byte.
    rewrite !append_cons, append_nil_l. cbn. by destruct (hexlify data).
  - rewrite <- seq_shift, map_map, <- IH.
    apply map_ext; intros k. unfold slice.
    cbn [hexlify]; unfold hexlify_byte.
    rewrite !append_cons, append_nil_l.
    replace (2 * S k + 2 - 2 * S k)%nat with 2%nat by lia.
    replace (2 * k + 2 - 2 * k)%nat with 2%nat by lia.
    apply substring_skip_pair.
Qed.

Lemma hex_formatted_join (data : list byte) :
  fst (format_bytes data) = join " " (map hexlify_byte data).
Proof. unfold format_bytes; cbn [fst]. by rewrite hex_pairs_hexlify. Qed.

Lemma hexlify_byte_value (b : byte) :
  octet_value false (hexlify_byte b) = Some (Byte.to_N b).
Proof. by destruct b. Qed.

Lemma format_02X_value (b : byte) :
  octet_value true (format_02X (Byte.to_N b)) = Some (Byte.to_N b).
Proof. by destruct b. Qed.

Lemma octets_of_map {upper : bool} (f : byte -> string) (data : list byte) :
  (forall b, octet_value upper (f b) = Some (Byte.to_N b)) ->
  Forall2 (fun o b => octet_value upper o = Some (Byte.to_N b))
    (map f data) data.
Proof. intros Hf. induction data; constructor; auto. Qed.

(** C2, as the claim words it, fails: the byte 0xAB is written with the
    lowercase digits of [binascii.hexlify], not as two uppercase hex
    digits. *)
Lemma hex_string_not_uppercase :
  ~ hex_rendering true [xab] (fst (format_bytes [xab])).
Proof.
  intros (octets & Hs & Hall).
  inversion Hall as [|o b os bs Ho Hrest]; subst.
  inversion Hrest; subst.
  vm_compute in Hs; subst o. vm_compute in Ho. discriminate.
Qed.

(** C2 (amended). For every byte sequence the hex string returned by
    [format_bytes] writes each input byte as two lowercase hex digits,
    octets separated by a single space, in input order; for empty input
    the hex string is empty. *)
Theorem hex_string_lowercase (data : list byte) :
  hex_rendering false data (fst (format_bytes data)) /\
  fst (format_bytes []) = "".
Proof.
  split; [|done].
  exists (map hexlify_byte data). split.
  - apply hex_formatted_join.
  - apply octets_of_map, hexlify_byte_value.
Qed.

(** ** Splitting the hex string *)

Lemma split_lacks (sep : ascii) (s : string) :
  lacks sep s = true -> split sep s = [s].
Proof.
  induction s as [|c s IH]; cbn; [done|].
  destruct (Ascii.eqb c sep); cbn; [done|].
  intros H. by rewrite IH.
Qed.

Lemma split_append (sep : ascii) (p s : string) :
  lacks sep p = true ->
  split sep (p +:+ String sep s) = p :: split sep s.
Proof.
  induction p as [|c p IH]; rewrite ?append_nil_l, ?append_cons; cbn.
  - by rewrite Ascii.eqb_refl.
  - destruct (Ascii.eqb c sep); cbn; [done|].
    intros H. by rewrite IH.
Qed.

Lemma join_cons (sep x y : string) (l : list string) :
  join sep (x :: y :: l) = x +:+ sep +:+ join sep (y :: l).
Proof. reflexivity. Qed.

Lemma split_join (sep : ascii) (part : string) (parts : list string) :
  Forall (fun p => lacks sep p = true) (part :: parts) ->
  split sep (join (String sep "") (part :: parts)) = part :: parts.
Proof.
  revert part; induction parts as [|q parts IH]; intros part Hall.
  - apply split_lacks. by inversion Hall.
  - inversion Hall as [|? ? Hp Hrest]; subst.
    by rewrite join_cons, append_cons, append_nil_l, split_append, IH.
Qed.

Lemma octet_lacks_space (upper : bool) (o : string) (n : N) :
  octet_value upper o = Some n -> lacks " " o = true.
Proof.
  destruct o as [|h [|l [|? ?]]]; try done. cbn.
  destruct (hex_value upper h) eqn:Hh; [|done].
  destruct (hex_value upper l) eqn:Hl; [|done]. intros _.
  destruct (Ascii.eqb_spec h " ") as [->|_];
    [by destruct upper|].
  destruct (Ascii.eqb_spec l " ") as [->|_]; by destruct upper.
Qed.

Lemma hexlify_byte_lacks_space (data : list byte) :
  Forall (fun p => lacks " " p = true) (map hexlify_byte data).
Proof.
  apply Forall_forall. intros o [b [-> _]]%list_elem_of_fmap.
  eapply octet_lacks_space, hexlify_byte_value.
Qed.

(** C7, as the claim words it, fails on the empty sequence: its hex string
    is empty, and splitting the empty string on the separator gives one
    (empty) piece, not zero. *)
Lemma split_hex_string_empty :
  length (split " " (fst (format_bytes []))) <> length (@nil byte).
Proof. vm_compute. discriminate. Qed.

(** C7 (amended). For every non-empty byte sequence, splitting the hex
    string of [format_bytes] on the space separator yields exactly as many
    pieces as there are input bytes, each the two-digit octet of the byte
    at its position; for the empty sequence the split yields a single empty
    piece. *)
Theorem split_hex_string_octets (b : byte) (rest : list byte) :
  length (split " " (fst (format_bytes (b :: rest)))) = length (b :: rest) /\
  Forall2 (fun o x => octet_value false o = Some (Byte.to_N x))
    (split " " (fst (format_bytes (b :: rest)))) (b :: rest) /\
  split " " (fst (format_bytes [])) = [""].
Proof.
  rewrite hex_formatted_join.
  change (map hexlify_byte (b :: rest))
    with (hexlify_byte b :: map hexlify_byte rest).
  rewrite split_join by apply (hexlify_byte_lacks_space (b :: rest)).
  repeat split.
  - cbn. by rewrite length_map.
  - apply (octets_of_map hexlify_byte (b :: rest)), hexlify_byte_value.
Qed.

(** ** The decoder, by frame length *)

Ltac run_py := unfold mbind, mret, py_bind, py_ret, index; cbn.

Ltac split_opcode :=
  repeat match goal with
         | |- context [(?n =? ?k)%N] => destruct (n =? k)%N eqn:?; cbn
         end.

Lemma decode_empty : decode_monome_message [] = Ret None.
Proof. reflexivity. Qed.

Lemma decode_single (a : byte) :
  decode_monome_message [a] = Ret (Some (initial_result [a] (Byte.to_N a))).
Proof.
  unfold decode_monome_message, system_query_guard. run_py.
  split_opcode; reflexivity.
Qed.

Lemma decode_pair (a x : byte) :
  decode_monome_message [a; x] =
  Ret (Some
    (if (Byte.to_N a =? 0x01)%N
     then classify (initial_result [a; x] (Byte.to_N a))
            ("Device ID: " +:+ strip (decode_ascii_ignore [x])) GREEN
     else initial_result [a; x] (Byte.to_N a))).
Proof.
  unfold decode_monome_message, system_query_guard. run_py.
  split_opcode; reflexivity.
Qed.

Lemma decode_long (a x y : byte) (rest : list byte) :
  decode_monome_message (a :: x :: y :: rest) =
  let result := initial_result (a :: x :: y :: rest) (Byte.to_N a) in
  let position := str (Byte.to_N x) +:+ ", " +:+ str (Byte.to_N y) +:+ ")" in
  Ret (Some
    (if (Byte.to_N a =? 0x00)%N
     then classify result ("Key UP at (" +:+ position) CYAN
     else if (Byte.to_N a =? 0x01)%N
     then classify result ("Key DOWN at (" +:+ position) MAGENTA
     else if (Byte.to_N a =? 0x20)%N
     then classify result ("Key UP at (" +:+ position +:+ " [Alt code]") CYAN
     else if (Byte.to_N a =? 0x21)%N
     then classify result ("Key DOWN at (" +:+ position +:+ " [Alt code]") MAGENTA
     else if (Byte.to_N a =? 0x03)%N
     then classify result
            ("Grid Size: " +:+ str (Byte.to_N x) +:+ "x" +:+ str (Byte.to_N y))
            YELLOW
     else result)).
Proof.
  unfold decode_monome_message, system_query_guard. run_py.
  split_opcode; rewrite ?append_assoc; reflexivity.
Qed.

(** ** Fields of the result dictionary *)

Lemma classify_decoded (r : gmap string string) (d c : string) :
  classify r d c !! "decoded" = Some d.
Proof. unfold classify. by simplify_map_eq. Qed.

Lemma classify_color (r : gmap string string) (d c : string) :
  classify r d c !! "color" = Some c.
Proof. unfold classify. by simplify_map_eq. Qed.

Lemma classify_other (r : gmap string string) (d c k : string) :
  k <> "color" -> k <> "decoded" -> classify r d c !! k = r !! k.
Proof. intros. unfold classify. by simplify_map_eq. Qed.

Lemma initial_decoded (data : list byte) (t : N) :
  initial_result data t !! "decoded" = Some "Unknown".
Proof. unfold initial_result. by simplify_map_eq. Qed.

Lemma initial_color (data : list byte) (t : N) :
  initial_result data t !! "color" = None.
Proof. unfold initial_result. by simplify_map_eq. Qed.

Lemma initial_raw_hex (data : list byte) (t : N) :
  initial_result data t !! "raw_hex" =
  Some (join " " (map (fun b => format_02X (Byte.to_N b)) data)).
Proof. unfold initial_result. by simplify_map_eq. Qed.

Lemma initial_type (data : list byte) (t : N) :
  initial_result data t !! "type" = Some ("0x" +:+ format_02X t).
Proof. unfold initial_result. by simplify_map_eq. Qed.

Lemma initial_nonempty (data : list byte) (t : N) : initial_result data t <> ∅.
Proof.
  intros H. pose proof (initial_decoded data t) as Hd.
  rewrite H in Hd. by rewrite lookup_empty in Hd.
Qed.

Lemma classify_nonempty (r : gmap string string) (d c : string) :
  classify r d c <> ∅.
Proof.
  intros H. pose proof (classify_color r d c) as Hc.
  rewrite H in Hc. by rewrite lookup_empty in Hc.
Qed.

(** Every non-empty frame decodes to the initial dictionary, possibly with
    its description overwritten and a colour (an escape sequence) added. *)
Lemma decode_shape (a : byte) (rest : list byte) :
  exists m,
    decode_monome_message (a :: rest) = Ret (Some m) /\
    (m = initial_result (a :: rest) (Byte.to_N a) \/
     exists d c,
       m = classify (initial_result (a :: rest) (Byte.to_N a)) d (String ESC c)).
Proof.
  assert (forall m : gmap string string,
            m = initial_result (a :: rest) (Byte.to_N a) \/
            (exists d c,
               m = classify (initial_result (a :: rest) (Byte.to_N a)) d
                     (String ESC c)) ->
            exists m', Ret (Some m) = Ret (Some m') /\
              (m' = initial_result (a :: rest) (Byte.to_N a) \/
               exists d c,
                 m' = classify (initial_result (a :: rest) (Byte.to_N a)) d
                        (String ESC c)))
    as Hclose by eauto.
  assert (forall r d c, exists d' c',
            classify r d (String ESC c) = classify r d' (String ESC c'))
    as Hcoloured by eauto.
  destruct rest as [|x [|y rest]].
  - rewrite decode_single. apply Hclose. by left.
  - rewrite decode_pair. apply Hclose.
    destruct (_ =? _)%N; [right; apply Hcoloured | by left].
  - rewrite decode_long. cbv zeta. apply Hclose.
    repeat (destruct (_ =? _)%N; [right; apply Hcoloured|]). by left.
Qed.

(** ** The decoder's contract *)

(** C3. [decode_monome_message] returns [None] exactly on the zero-length
    input; on every input it returns without raising, and a non-empty input
    yields a result dictionary. *)
Theorem decode_none_iff_empty (data : list byte) :
  exists r,
    decode_monome_message data = Ret r /\
    (r = None <-> data = []) /\
    (data <> [] -> exists m, r = Some m).
Proof.
  destruct data as [|a rest].
  - exists None. by rewrite decode_empty.
  - destruct (decode_shape a rest) as (m & -> & _).
    exists (Some m). repeat split; try done. eauto.
Qed.

(** C5. For every non-empty frame the result's [raw_hex] field writes every
    input byte as two uppercase hex digits, space-joined in input order, and
    its [type] field is ["0x"] followed by the two uppercase hex digits of
    the first byte, whichever branch classified the frame. *)
Theorem decode_raw_hex_and_opcode (b : byte) (rest : list byte) :
  exists m raw o,
    decode_monome_message (b :: rest) = Ret (Some m) /\
    m !! "raw_hex" = Some raw /\ hex_rendering true (b :: rest) raw /\
    m !! "type" = Some ("0x" +:+ o) /\
    octet_value true o = Some (Byte.to_N b).
Proof.
  destruct (decode_shape b rest) as (m & Hm & Hshape).
  exists m, (join " " (map (fun x => format_02X (Byte.to_N x)) (b :: rest))),
    (format_02X (Byte.to_N b)).
  assert (m !! "raw_hex" =
          initial_result (b :: rest) (Byte.to_N b) !! "raw_hex" /\
          m !! "type" = initial_result (b :: rest) (Byte.to_N b) !! "type")
    as [-> ->].
  { destruct Hshape as [->|(d & c & ->)]; [done|].
    by rewrite !classify_other. }
  rewrite initial_raw_hex, initial_type. repeat split; try done.
  - eexists. split; [reflexivity|].
    apply (octets_of_map (fun x => format_02X (Byte.to_N x)) (b :: rest)).
    apply format_02X_value.
  - apply format_02X_value.
Qed.

Lemma rule5_shadowed (data : list byte) : rule5 data = true -> rule1 data = true.
Proof. unfold rule5, rule1. by intros [? _]%andb_true_iff. Qed.

Lemma never_system_query (data : list byte) (m : gmap string string) :
  decode_monome_message data = Ret (Some m) ->
  m !! "color" <> Some BLUE /\
  exists d, m !! "decoded" = Some d /\
            String.prefix "System Query Response" d = false.
Proof.
  assert (forall r d c, c <> BLUE ->
            String.prefix "System Query Response" d = false ->
            classify r d c !! "color" <> Some BLUE /\
            exists d', classify r d c !! "decoded" = Some d' /\
                       String.prefix "System Query Response" d' = false)
    as Hclassified.
  { intros r d c Hc Hd. rewrite classify_color, classify_decoded.
    split; [congruence | eauto]. }
  assert (forall l t,
            initial_result l t !! "color" <> Some BLUE /\
            exists d', initial_result l t !! "decoded" = Some d' /\
                       String.prefix "System Query Response" d' = false)
    as Hinitial.
  { intros l t. rewrite initial_color, initial_decoded. split; [done | eauto]. }
  destruct data as [|a [|x [|y rest]]].
  - by rewrite decode_empty.
  - rewrite decode_single. intros [= <-]. apply Hinitial.
  - rewrite decode_pair. intros [= <-].
    destruct (_ =? _)%N; [by apply Hclassified | apply Hinitial].
  - rewrite decode_long. cbv zeta. intros [= <-].
    repeat (destruct (_ =? _)%N; [by apply Hclassified|]). apply Hinitial.
Qed.

(** C1. Every frame of length at least 3 whose first byte is 0x00 is
    described as "Key UP at (x, y)" with x and y the decimal values of the
    second and third byte; the System-Query-Response branch never sets the
    description (nor its colour) for any input, because every frame meeting
    its condition already meets that of the first Key-UP branch. *)
Theorem key_up_shadows_system_query :
  (forall (x y : byte) (rest : list byte),
     exists m,
       decode_monome_message (x00 :: x :: y :: rest) = Ret (Some m) /\
       m !! "decoded" =
         Some ("Key UP at (" +:+ str (Byte.to_N x) +:+ ", "
                 +:+ str (Byte.to_N y) +:+ ")")) /\
  (exists m,
     decode_monome_message [x00; x05; x02] = Ret (Some m) /\
     m !! "decoded" = Some "Key UP at (5, 2)" /\
     rule5 [x00; x05; x02] = true) /\
  (forall data : list byte, rule5 data = true -> rule1 data = true) /\
  (forall (data : list byte) (m : gmap string string),
     decode_monome_message data = Ret (Some m) ->
     m !! "color" <> Some BLUE /\
     exists d, m !! "decoded" = Some d /\
               String.prefix "System Query Response" d = false).
Proof.
  split; [|split; [|split]].
  - intros x y rest. rewrite decode_long. cbv zeta.
    change (Byte.to_N x00 =? 0)%N with true. cbv iota.
    eexists. split; [reflexivity|]. by rewrite classify_decoded.
  - eexists. split; [by vm_compute|]. by vm_compute.
  - apply rule5_shadowed.
  - apply never_system_query.
Qed.

(** C4. A non-empty frame that meets none of the seven branch conditions is
    returned with description exactly "Unknown" and with no colour entry;
    the decoder returns normally. *)
Theorem unmatched_frame_is_unknown (data : list byte) :
  data <> [] ->
  rule1 data = false -> rule2 data = false -> rule3 data = false ->
  rule4 data = false -> rule5 data = false -> rule6 data = false ->
  rule7 data = false ->
  exists m,
    decode_monome_message data = Ret (Some m) /\
    m !! "decoded" = Some "Unknown" /\ m !! "color" = None.
Proof.
  intros Hne H1 H2 H3 H4 H5 H6 H7.
  exists (initial_result data
            (match data with b :: _ => Byte.to_N b | [] => 0%N end)).
  rewrite initial_decoded, initial_color. split; [|done].
  destruct data as [|a [|x [|y rest]]]; [done| | |].
  - apply decode_single.
  - rewrite decode_pair.
    unfold rule6, opcode_is in H6; cbn in H6.
    rewrite andb_true_r in H6. by rewrite H6.
  - rewrite decode_long. cbv zeta.
    unfold rule1, rule2, rule3, rule4, rule7, opcode_is in *.
    cbn in H1, H2, H3, H4, H7. rewrite andb_true_r in H1, H2, H3, H4, H7.
    by rewrite H1, H2, H3, H4, H7.
Qed.

Lemma unmatched_frame_witness :
  exists m,
    decode_monome_message [x00; x01] = Ret (Some m) /\
    m !! "decoded" = Some "Unknown" /\ m !! "color" = None.
Proof.
  apply (unmatched_frame_is_unknown [x00; x01]);
    first [discriminate | reflexivity].
Defined.

(** Conversely, a frame meeting any branch condition is classified: the
    seven predicates are exactly the decoder's branch conditions. *)
Lemma matched_frame_is_classified (data : list byte) :
  rule1 data || rule2 data || rule3 data || rule4 data || rule5 data
    || rule6 data || rule7 data = true ->
  exists m,
    decode_monome_message data = Ret (Some m) /\ is_Some (m !! "color").
Proof.
  assert (forall r d c,
            exists m, Ret (Some (classify r d c)) = Ret (Some m) /\
                      is_Some (m !! "color")) as Hclassified.
  { intros r d c. eexists. split; [reflexivity|]. by rewrite classify_color. }
  unfold rule1, rule2, rule3, rule4, rule5, rule6, rule7, opcode_is.
  intros H. destruct data as [|a [|x [|y rest]]]; cbn in H.
  - done.
  - by rewrite !andb_false_r in H.
  - rewrite !andb_false_r, andb_true_r in H; cbn in H.
    rewrite orb_false_r in H.
    rewrite decode_pair, H. apply Hclassified.
  - rewrite !andb_true_r in H. rewrite decode_long. cbv zeta.
    repeat (destruct (_ =? _)%N; [apply Hclassified|]); by cbn in H.
Qed.

(** C8. Every frame of length at least 3 whose first byte is 0x03 is
    described as "Grid Size: wxh" with w and h the decimal values of the
    second and third byte; in particular the frame 03 10 08 is described as
    "Grid Size: 16x8". *)
Theorem grid_size_description :
  (forall (w h : byte) (rest : list byte),
     exists m,
       decode_monome_message (x03 :: w :: h :: rest) = Ret (Some m) /\
       m !! "decoded" =
         Some ("Grid Size: " +:+ str (Byte.to_N w) +:+ "x"
                 +:+ str (Byte.to_N h))) /\
  (Byte.to_N x10 = 16%N /\ Byte.to_N x08 = 8%N /\
   exists m,
     decode_monome_message [x03; x10; x08] = Ret (Some m) /\
     m !! "decoded" = Some "Grid Size: 16x8").
Proof.
  split.
  - intros w h rest. rewrite decode_long. cbv zeta.
    change (Byte.to_N x03) with 3%N. cbn [N.eqb Pos.eqb].
    eexists. split; [reflexivity|]. by rewrite classify_decoded.
  - split; [done|]. split; [done|].
    eexists. split; [by vm_compute|]. by vm_compute.
Qed.

(** ** The Device-ID branch on two-byte frames *)

Lemma strip_single (c : ascii) :
  strip (String c "") = if isspace c then "" else String c "".
Proof. unfold strip; cbn. destruct (isspace c) eqn:E; cbn; by rewrite ?E. Qed.

Lemma device_id_single (b : byte) :
  strip (decode_ascii_ignore [b]) =
  if (Byte.to_N b <? 128)%N && negb (isspace (chr b))
  then String (chr b) "" else "".
Proof.
  cbn [decode_ascii_ignore]. destruct (Byte.to_N b <? 128)%N; [|done].
  rewrite strip_single. by destruct (isspace (chr b)).
Qed.

(** C9. Every two-byte frame whose first byte is 0x01 is classified by the
    Device-ID branch: it misses the Key-DOWN condition (length at least 3)
    and meets the Device-ID condition (length above 1), and its description
    is "Device ID: d" where d is the ASCII decoding of the second byte with
    a non-ASCII byte dropped and surrounding whitespace stripped: the
    one-character string of that byte when it is an ASCII non-blank, the
    empty string otherwise. *)
Theorem device_id_rule_reachable (b : byte) :
  rule1 [x01; b] || rule2 [x01; b] || rule3 [x01; b] || rule4 [x01; b]
    || rule5 [x01; b] = false /\
  rule6 [x01; b] = true /\
  exists m,
    decode_monome_message [x01; b] = Ret (Some m) /\
    m !! "decoded" =
      Some ("Device ID: " +:+ strip (decode_ascii_ignore (drop 1 [x01; b]))) /\
    m !! "color" = Some GREEN /\
    strip (decode_ascii_ignore (drop 1 [x01; b])) =
      (if (Byte.to_N b <? 128)%N && negb (isspace (chr b))
       then String (chr b) "" else "").
Proof.
  split; [done|]. split; [done|].
  rewrite decode_pair. change (Byte.to_N x01 =? 1)%N with true. cbv iota.
  eexists. split; [reflexivity|].
  rewrite classify_decoded, classify_color.
  repeat split. apply device_id_single.
Qed.

(** ** The read loop in interpret mode *)

Lemma interpreted_not_raw (ts : string) (m : gmap string string) (c : string) :
  get m "color" RESET = String ESC c ->
  ~ raw_data_line ts (interpreted_line ts m).
Proof.
  intros Hc [hex_data H]. unfold interpreted_line in H. rewrite Hc in H.
  apply append_inv_l, append_inv_l in H.
  rewrite !append_cons, !append_nil_l in H.
  injection H as H. by vm_compute in H.
Qed.

Lemma interpreted_prefix (ts : string) (m : gmap string string) :
  String.prefix "Raw data: " (interpreted_line ts m) = false.
Proof. unfold interpreted_line. by rewrite !append_cons. Qed.

(** One non-empty chunk in interpret mode. *)
Lemma render_interpret (ts : string) (a : byte) (rest : list byte) :
  exists m,
    decode_monome_message (a :: rest) = Ret (Some m) /\
    m <> ∅ /\
    render false true ts (a :: rest) = Ret (interpreted_line ts m) /\
    ~ raw_data_line ts (interpreted_line ts m).
Proof.
  destruct (decode_shape a rest) as (m & Hm & Hshape).
  exists m. split; [done|].
  assert (m <> ∅ /\ is_Some (m !! "decoded") /\ is_Some (m !! "raw_hex") /\
          exists c, get m "color" RESET = String ESC c)
    as (Hne & [d Hd] & [r Hr] & [c Hc]).
  { destruct Hshape as [->|(d & c & ->)].
    - split; [apply initial_nonempty|].
      rewrite initial_decoded, initial_raw_hex. unfold get.
      rewrite initial_color. repeat split; eauto.
    - split; [apply classify_nonempty|].
      rewrite classify_decoded, classify_other, initial_raw_hex by done.
      unfold get. rewrite classify_color. repeat split; eauto. }
  split; [done|]. split; [|by eapply interpreted_not_raw].
  unfold render. rewrite Hm. unfold mbind, py_bind at 1.
  rewrite bool_decide_eq_false_2 by done.
  unfold getitem, interpreted_line. by rewrite Hd, Hr.
Qed.

Lemma emit_nothing (s : sinks) :
  {| console := (console s ++ [])%list;
     log_f := (fun written : list string => (written ++ logged [])%list)
                <$> log_f s |} = s.
Proof.
  destruct s as [printed [written|]]; cbn; by rewrite ?app_nil_r.
Qed.

Lemma emit_more (output : string) (lines : list string) (s : sinks) :
  {| console := (console (emit output s) ++ lines)%list;
     log_f := (fun written : list string => (written ++ logged lines)%list)
                <$> log_f (emit output s) |} =
  {| console := (console s ++ output :: lines)%list;
     log_f := (fun written : list string =>
                 (written ++ logged (output :: lines))%list) <$> log_f s |}.
Proof.
  destruct s as [printed [written|]]; cbn; by rewrite <- ?app_assoc.
Qed.

(** C10. In interpret mode every non-empty chunk decodes to a non-empty
    result dictionary, so the loop always takes the decoded-message branch:
    over any sequence of polls the loop returns normally, and every line it
    prints (and logs) is the decoded rendering of a non-empty chunk it
    read, never the hex-only fallback line "[ts] Raw data: ...". *)
Theorem interpret_mode_never_raw :
  (forall (a : byte) (rest : list byte),
     exists m, decode_monome_message (a :: rest) = Ret (Some m) /\ m <> ∅) /\
  (forall (polls : list poll) (s : sinks),
     exists lines,
       read_loop false true polls s =
         Ret {| console := (console s ++ lines)%list;
                log_f := (fun written : list string =>
                            (written ++ logged lines)%list) <$> log_f s |} /\
       Forall (fun line =>
         exists p m,
           p ∈ polls /\ chunk p <> [] /\
           decode_monome_message (chunk p) = Ret (Some m) /\
           line = interpreted_line (timestamp p) m /\
           ~ raw_data_line (timestamp p) line /\
           String.prefix "Raw data: " line = false) lines).
Proof.
  split.
  { intros a rest. destruct (render_interpret "" a rest) as (m & ? & ? & _).
    eauto. }
  induction polls as [|p polls IH]; intros s.
  { exists []. split; [|constructor]. cbn. by rewrite emit_nothing. }
  cbn [read_loop]. unfold loop_body.
  assert (forall s' : sinks,
            exists lines,
              read_loop false true polls s' =
                Ret {| console := (console s' ++ lines)%list;
                       log_f := (fun written : list string =>
                                   (written ++ logged lines)%list)
                                  <$> log_f s' |} /\
              Forall (fun line =>
                exists p' m,
                  p' ∈ p :: polls /\ chunk p' <> [] /\
                  decode_monome_message (chunk p') = Ret (Some m) /\
                  line = interpreted_line (timestamp p') m /\
                  ~ raw_data_line (timestamp p') line /\
                  String.prefix "Raw data: " line = false) lines) as IH'.
  { intros s'. destruct (IH s') as (lines & Hrun & Hlines).
    exists lines. split; [done|].
    eapply Forall_impl; [exact Hlines|].
    intros line (p' & m & Hin & Hrest). exists p', m.
    split; [by apply list_elem_of_further | done]. }
  destruct (0 <? in_waiting p)%N; [|apply IH'].
  destruct (chunk p) as [|a rest] eqn:Hchunk; [apply IH'|].
  destruct (render_interpret (timestamp p) a rest) as (m & Hm & _ & Hout & Hraw).
  cbn [bool_decide negb]. rewrite bool_decide_eq_false_2 by done. cbn [negb].
  rewrite Hout. unfold mbind, mret, py_bind, py_ret.
  destruct (IH' (emit (interpreted_line (timestamp p) m) s))
    as (lines & Hrun & Hlines).
  exists (interpreted_line (timestamp p) m :: lines).
  rewrite Hrun, emit_more. split; [done|].
  constructor; [|done].
  exists p, m. rewrite Hchunk.
  repeat split;
    first [done | apply list_elem_of_here | apply interpreted_prefix].
Qed.

(** * Further properties *)

(** ** The formatter *)

Lemma join_nonempty (o : string) (os : list string) :
  o <> "" -> join " " (o :: os) <> "".
Proof.
  intros Ho. destruct os as [|o' os]; [done|].
  rewrite join_cons. destruct o; [done|]. by rewrite append_cons.
Qed.

Lemma parse_octets_join (upper : bool) (f : byte -> string) (data : list byte) :
  (forall b, octet_value upper (f b) = Some (Byte.to_N b)) ->
  parse_octets upper (join " " (map f data)) = Some data.
Proof.
  intros Hf. destruct data as [|b rest]; [done|].
  assert (Forall (fun p => lacks " " p = true) (map f (b :: rest))) as Hlacks.
  { apply Forall_forall. intros o [x [-> _]]%list_elem_of_fmap.
    eapply octet_lacks_space, Hf. }
  unfold parse_octets.
  destruct (String.eqb_spec (join " " (map f (b :: rest))) "") as [He|_].
  { exfalso. revert He. apply join_nonempty.
    intros H0. specialize (Hf b). by rewrite H0 in Hf. }
  change (map f (b :: rest)) with (f b :: map f rest) in *.
  rewrite split_join by done.
  apply (mapM_fmap_Some _ f (b :: rest)).
  intros x. rewrite Hf. cbn. apply Byte.of_to_N.
Qed.

(** X1. The hex string of [format_bytes] is lossless: reading its
    lowercase octets back returns the input bytes, for every input
    including the empty one. *)
Theorem hex_string_round_trip (data : list byte) :
  parse_octets false (fst (format_bytes data)) = Some data.
Proof.
  rewrite hex_formatted_join. apply parse_octets_join, hexlify_byte_value.
Qed.

Lemma length_join_octets (f : byte -> string) (data : list byte) :
  (forall b, String.length (f b) = 2%nat) ->
  String.length (join " " (map f data)) = (3 * length data - 1)%nat.
Proof.
  intros Hf. destruct data as [|b rest]; [done|].
  revert b; induction rest as [|c rest IH]; intros b.
  - cbn. apply Hf.
  - change (map f (b :: c :: rest)) with (f b :: f c :: map f rest).
    rewrite join_cons, !length_append.
    change (f c :: map f rest) with (map f (c :: rest)).
    rewrite IH, Hf. cbn [length String.length]. lia.
Qed.

(** X2. The hex string has three characters per byte less the missing
    final blank: its length is [3 * len(data) - 1], and 0 for empty input. *)
Theorem hex_string_length (data : list byte) :
  String.length (fst (format_bytes data)) = (3 * length data - 1)%nat.
Proof. rewrite hex_formatted_join. by apply length_join_octets. Qed.

Lemma shadow_printable (b : byte) : printable (shadow b) = true.
Proof. by destruct b. Qed.

Lemma all_chars_of_list (P : ascii -> bool) (l : list ascii) :
  all_chars P (string_of_list_ascii l) = forallb P l.
Proof. induction l as [|c l IH]; cbn; [done | by rewrite IH]. Qed.

Lemma readable_printable (data : list byte) :
  all_chars printable (snd (format_bytes data)) = true.
Proof.
  rewrite readable_shadow, all_chars_of_list.
  apply forallb_forall. intros c [b [<- _]]%in_map_iff.
  apply shadow_printable.
Qed.

(** X3. The ASCII shadow never carries a control or non-ASCII character:
    every character of it lies in the printable range [0x20, 0x7E]. *)
Theorem ascii_shadow_printable (data : list byte) :
  all_chars printable (snd (format_bytes data)) = true.
Proof. apply readable_printable. Qed.

(** X4. On input made of printable bytes only, the ASCII shadow is the
    input's own ASCII decoding. *)
Theorem ascii_shadow_of_printable (data : list byte) :
  Forall (fun b => (32 <= Byte.to_N b <= 126)%N) data ->
  snd (format_bytes data) = decode_ascii_ignore data.
Proof.
  rewrite readable_shadow.
  induction 1 as [|b rest Hb _ IH]; [done|]. cbn. rewrite IH.
  replace (Byte.to_N b <? 128)%N with true by (symmetry; apply N.ltb_lt; lia).
  unfold shadow. rewrite chr_ascii_of_N.
  replace (32 <=? Byte.to_N b)%N with true by (symmetry; apply N.leb_le; lia).
  replace (Byte.to_N b <=? 126)%N with true by (symmetry; apply N.leb_le; lia).
  done.
Qed.

Lemma ascii_shadow_of_printable_witness :
  snd (format_bytes [x48; x69; x21]) = decode_ascii_ignore [x48; x69; x21].
Proof.
  apply (ascii_shadow_of_printable [x48; x69; x21]).
  repeat constructor; vm_compute; discriminate.
Defined.

Lemma join_app (sep x y : string) (l k : list string) :
  join sep ((x :: l) ++ (y :: k)) =
  join sep (x :: l) +:+ sep +:+ join sep (y :: k).
Proof.
  revert x; induction l as [|z l IH]; intros x.
  - apply join_cons.
  - change ((x :: z :: l) ++ y :: k)%list with (x :: ((z :: l) ++ y :: k))%list.
    change ((z :: l) ++ y :: k)%list with (z :: (l ++ y :: k))%list.
    rewrite join_cons.
    change (z :: (l ++ y :: k))%list with ((z :: l) ++ y :: k)%list.
    by rewrite IH, join_cons, !append_assoc.
Qed.

(** X5. Formatting distributes over concatenation of chunks: the shadow of
    [a ++ b] is the two shadows appended, and for non-empty [a] and [b] the
    hex string of [a ++ b] is the two hex strings with one blank between. *)
Theorem format_bytes_concat :
  (forall a b : list byte,
     snd (format_bytes (a ++ b)) = snd (format_bytes a) +:+ snd (format_bytes b)) /\
  (forall (x y : byte) (a b : list byte),
     fst (format_bytes ((x :: a) ++ (y :: b))) =
     fst (format_bytes (x :: a)) +:+ " " +:+ fst (format_bytes (y :: b))).
Proof.
  split.
  - intros a b. unfold format_bytes; cbn [snd].
    by rewrite fold_left_app, !fold_readable, !append_nil_l.
  - intros x y a b. rewrite !hex_formatted_join, map_app.
    apply (join_app " " (hexlify_byte x) (hexlify_byte y)).
Qed.

(** ** The decoder *)

Lemma map_chars_append (f : ascii -> ascii) (s t : string) :
  map_chars f (s +:+ t) = map_chars f s +:+ map_chars f t.
Proof.
  induction s as [|c s IH]; [done|].
  rewrite append_cons; cbn [map_chars]. by rewrite append_cons, IH.
Qed.

Lemma map_chars_join (f : ascii -> ascii) (sep : string) (l : list string) :
  map_chars f (join sep l) = join (map_chars f sep) (map (map_chars f) l).
Proof.
  destruct l as [|x l]; [done|].
  revert x; induction l as [|y l IH]; intros x; [done|].
  change (map (map_chars f) (x :: y :: l))
    with (map_chars f x :: map_chars f y :: map (map_chars f) l).
  rewrite !join_cons, !map_chars_append, IH. done.
Qed.

Lemma upper_hexlify_byte (b : byte) :
  map_chars to_upper (hexlify_byte b) = format_02X (Byte.to_N b).
Proof. by destruct b. Qed.

(** The two frame fields every result carries. *)
Lemma decode_frame_fields (a : byte) (rest : list byte) :
  exists m,
    decode_monome_message (a :: rest) = Ret (Some m) /\
    m !! "raw_hex" =
      Some (join " " (map (fun b => format_02X (Byte.to_N b)) (a :: rest))) /\
    m !! "type" = Some ("0x" +:+ format_02X (Byte.to_N a)).
Proof.
  destruct (decode_shape a rest) as (m & Hm & Hshape).
  exists m. split; [done|].
  destruct Hshape as [->|(d & c & ->)];
    rewrite ?classify_other by done;
    by rewrite initial_raw_hex, initial_type.
Qed.

(** X6. The decoder's [raw_hex] is the formatter's hex string in upper
    case: both paths print the same octets in the same layout and differ
    only in the letter case of the digits. *)
Theorem raw_hex_is_upper_hex_string (a : byte) (rest : list byte) :
  exists m,
    decode_monome_message (a :: rest) = Ret (Some m) /\
    m !! "raw_hex" = Some (map_chars to_upper (fst (format_bytes (a :: rest)))).
Proof.
  destruct (decode_frame_fields a rest) as (m & Hm & Hraw & _).
  exists m. split; [done|]. rewrite Hraw. f_equal.
  rewrite hex_formatted_join, map_chars_join, map_map.
  change (map_chars to_upper " ") with " ". f_equal.
  apply map_ext. intros b. by rewrite upper_hexlify_byte.
Qed.

(** X7. Decoding is lossless: the [raw_hex] field of the result reads back
    (as uppercase octets) to exactly the frame that was decoded, whatever
    the classification. *)
Theorem raw_hex_round_trip (a : byte) (rest : list byte) :
  exists m raw,
    decode_monome_message (a :: rest) = Ret (Some m) /\
    m !! "raw_hex" = Some raw /\
    parse_octets true raw = Some (a :: rest).
Proof.
  destruct (decode_frame_fields a rest) as (m & Hm & Hraw & _).
  exists m. eexists. split; [done|]. split; [exact Hraw|].
  apply (parse_octets_join true (fun b => format_02X (Byte.to_N b))).
  apply format_02X_value.
Qed.

Lemma byte_of_value (a : byte) (n : N) (b : byte) :
  Byte.of_N n = Some b -> (Byte.to_N a =? n)%N = true -> a = b.
Proof.
  intros Hb Ha%N.eqb_eq. pose proof (Byte.of_to_N a) as H.
  rewrite Ha, Hb in H. by injection H.
Qed.

Ltac head_differs :=
  rewrite ?append_cons; let H := fresh in intros H; discriminate H.

(** The result of a non-empty frame, with the branch that produced it. *)
Lemma decode_classes (a : byte) (rest : list byte) :
  exists m,
    decode_monome_message (a :: rest) = Ret (Some m) /\
    (m = initial_result (a :: rest) (Byte.to_N a) \/
     exists d c,
       m = classify (initial_result (a :: rest) (Byte.to_N a)) d c /\
       d <> "Unknown" /\
       (c = GREEN /\ (exists b, a :: rest = [x01; b]) \/
        c ∈ [CYAN; MAGENTA; YELLOW] /\ (3 <= length (a :: rest))%nat)).
Proof.
  assert (forall l d c,
            d <> "Unknown" ->
            c ∈ [CYAN; MAGENTA; YELLOW] -> (3 <= length (a :: l))%nat ->
            exists m,
              Ret (Some (classify (initial_result (a :: l) (Byte.to_N a)) d c))
                = Ret (Some m) /\
              (m = initial_result (a :: l) (Byte.to_N a) \/
               exists d' c',
                 m = classify (initial_result (a :: l) (Byte.to_N a)) d' c' /\
                 d' <> "Unknown" /\
                 (c' = GREEN /\ (exists b, a :: l = [x01; b]) \/
                  c' ∈ [CYAN; MAGENTA; YELLOW] /\ (3 <= length (a :: l))%nat)))
    as Hkey.
  { intros l d c Hd Hc Hlen. eexists. split; [reflexivity|].
    right. exists d, c. auto. }
  destruct rest as [|x [|y rest]].
  - rewrite decode_single. eauto.
  - rewrite decode_pair. destruct (_ =? _)%N eqn:Ha.
    + eexists. split; [reflexivity|]. right. do 2 eexists.
      split; [reflexivity|]. split; [head_differs|]. left.
      split; [done|]. exists x. f_equal.
      by apply (byte_of_value a 1 x01).
    + eauto.
  - rewrite decode_long. cbv zeta.
    assert (3 <= length (a :: x :: y :: rest))%nat as Hlen by (cbn; lia).
    repeat (destruct (_ =? _)%N;
            [apply Hkey;
             [head_differs
             | by repeat first [apply list_elem_of_here
                               | apply list_elem_of_further]
             | done]|]).
    eauto.
Qed.

(** X8. In every result the description and the colour go together: either
    the description is "Unknown" and there is no [color] entry, or the
    description is something else and [color] is one of cyan, magenta,
    green and yellow. *)
Theorem colour_iff_classified (data : list byte) (m : gmap string string) :
  decode_monome_message data = Ret (Some m) ->
  (m !! "decoded" = Some "Unknown" /\ m !! "color" = None) \/
  (exists d c,
     m !! "decoded" = Some d /\ d <> "Unknown" /\
     m !! "color" = Some c /\ c ∈ [CYAN; MAGENTA; GREEN; YELLOW]).
Proof.
  destruct data as [|a rest]; [by rewrite decode_empty|].
  destruct (decode_classes a rest) as (m' & -> & Hcases). intros [= <-].
  destruct Hcases as [->|(d & c & -> & Hd & Hc)].
  - left. by rewrite initial_decoded, initial_color.
  - right. exists d, c. rewrite classify_decoded, classify_color.
    repeat split; [done|]. destruct Hc as [[-> _]|[Hc _]].
    + by repeat first [apply list_elem_of_here | apply list_elem_of_further].
    + apply list_elem_of_In in Hc. apply list_elem_of_In.
      cbn [In] in *. tauto.
Qed.

Lemma colour_iff_classified_witness :
  exists m,
    decode_monome_message [x03; x10; x08] = Ret (Some m) /\
    ((m !! "decoded" = Some "Unknown" /\ m !! "color" = None) \/
     (exists d c,
        m !! "decoded" = Some d /\ d <> "Unknown" /\
        m !! "color" = Some c /\ c ∈ [CYAN; MAGENTA; GREEN; YELLOW])).
Proof.
  eexists. split; [reflexivity|].
  apply (colour_iff_classified [x03; x10; x08]). reflexivity.
Defined.

Lemma dom_initial (data : list byte) (t : N) :
  dom (initial_result data t) = ({["raw_hex"; "type"; "decoded"]} : gset string).
Proof.
  unfold initial_result. rewrite !dom_insert_L, dom_empty_L. set_solver.
Qed.

Lemma dom_classify (r : gmap string string) (d c : string) :
  dom r = ({["raw_hex"; "type"; "decoded"]} : gset string) ->
  dom (classify r d c) =
  ({["raw_hex"; "type"; "decoded"; "color"]} : gset string).
Proof.
  intros Hr. unfold classify. rewrite !dom_insert_L, Hr. set_solver.
Qed.

(** X9. The keys of a result are exactly [raw_hex], [type] and [decoded],
    together with [color] precisely when the frame was classified (its
    description is not "Unknown"). *)
Theorem result_keys (a : byte) (rest : list byte) :
  exists m,
    decode_monome_message (a :: rest) = Ret (Some m) /\
    dom m =
      (if bool_decide (m !! "decoded" = Some "Unknown")
       then {["raw_hex"; "type"; "decoded"]}
       else {["raw_hex"; "type"; "decoded"; "color"]} : gset string).
Proof.
  destruct (decode_classes a rest) as (m & Hm & Hcases).
  exists m. split; [done|].
  destruct Hcases as [->|(d & c & -> & Hd & _)].
  - rewrite initial_decoded, bool_decide_eq_true_2 by done. apply dom_initial.
  - rewrite classify_decoded, bool_decide_eq_false_2 by congruence.
    apply dom_classify, dom_initial.
Qed.

(** X10. A frame of length at least 3 whose first byte is 0x01 is a key
    press: its description is "Key DOWN at (x, y)" in magenta, so the
    Device-ID branch is never taken for such a frame. *)
Theorem key_down_description (x y : byte) (rest : list byte) :
  exists m,
    decode_monome_message (x01 :: x :: y :: rest) = Ret (Some m) /\
    m !! "decoded" =
      Some ("Key DOWN at (" +:+ str (Byte.to_N x) +:+ ", "
              +:+ str (Byte.to_N y) +:+ ")") /\
    m !! "color" = Some MAGENTA.
Proof.
  rewrite decode_long. cbv zeta.
  change (Byte.to_N x01) with 1%N. cbn [N.eqb Pos.eqb].
  eexists. split; [reflexivity|].
  by rewrite classify_decoded, classify_color.
Qed.

(** X11. The alternative opcodes mirror the documented ones: a frame
    [20 x y ...] is described as the frame [00 x y ...] with " [Alt code]"
    appended and the same colour, and likewise [21 x y ...] against
    [01 x y ...]. *)
Theorem alt_codes_mirror (x y : byte) (rest : list byte) :
  (exists m,
     decode_monome_message (x20 :: x :: y :: rest) = Ret (Some m) /\
     m !! "decoded" =
       Some ("Key UP at (" +:+ str (Byte.to_N x) +:+ ", "
               +:+ str (Byte.to_N y) +:+ ") [Alt code]") /\
     m !! "color" = Some CYAN) /\
  (exists m,
     decode_monome_message (x21 :: x :: y :: rest) = Ret (Some m) /\
     m !! "decoded" =
       Some ("Key DOWN at (" +:+ str (Byte.to_N x) +:+ ", "
               +:+ str (Byte.to_N y) +:+ ") [Alt code]") /\
     m !! "color" = Some MAGENTA).
Proof.
  split; rewrite decode_long; cbv zeta.
  - change (Byte.to_N x20) with 32%N. cbn [N.eqb Pos.eqb].
    eexists. split; [reflexivity|].
    by rewrite classify_decoded, classify_color, !append_assoc.
  - change (Byte.to_N x21) with 33%N. cbn [N.eqb Pos.eqb].
    eexists. split; [reflexivity|].
    by rewrite classify_decoded, classify_color, !append_assoc.
Qed.

(** X12. Only the first three bytes of a frame are classified: any bytes
    after the third leave the description, the colour and the [type] field
    unchanged (they show up in [raw_hex] only). *)
Theorem trailing_bytes_ignored (a x y : byte) (rest : list byte) :
  exists m m3,
    decode_monome_message (a :: x :: y :: rest) = Ret (Some m) /\
    decode_monome_message [a; x; y] = Ret (Some m3) /\
    m !! "decoded" = m3 !! "decoded" /\
    m !! "color" = m3 !! "color" /\
    m !! "type" = m3 !! "type".
Proof.
  rewrite !decode_long. cbv zeta.
  do 2 eexists. split; [reflexivity|]. split; [reflexivity|].
  repeat (destruct (_ =? _)%N;
          [by rewrite !classify_decoded, !classify_color, !classify_other,
                      !initial_type by done|]).
  by rewrite !initial_decoded, !initial_color, !initial_type.
Qed.

(** X13. A Device-ID result (green) is produced for exactly the two-byte
    frames whose first byte is 0x01. *)
Theorem device_id_iff_two_bytes (data : list byte) (m : gmap string string) :
  decode_monome_message data = Ret (Some m) ->
  (m !! "color" = Some GREEN <-> exists b, data = [x01; b]).
Proof.
  destruct data as [|a rest]; [by rewrite decode_empty|].
  destruct (decode_classes a rest) as (m' & Hm & Hcases).
  rewrite Hm. intros [= <-].
  destruct Hcases as [->|(d & c & -> & _ & [[-> Hb]|[Hc Hlen]])].
  - rewrite initial_color. split; [done|].
    intros [b Hb]. injection Hb as -> ->. exfalso.
    rewrite decode_pair in Hm. change (Byte.to_N x01 =? 1)%N with true in Hm.
    apply (f_equal (fun r => match r with
                             | Ret (Some r') => r' !! "color"
                             | _ => None
                             end)) in Hm.
    cbv beta iota in Hm.
    by rewrite classify_color, initial_color in Hm.
  - rewrite classify_color. by split.
  - rewrite classify_color. split.
    + intros [= ->]. apply list_elem_of_In in Hc. cbn [In] in Hc.
      destruct Hc as [Hc|[Hc|[Hc|[]]]]; discriminate Hc.
    + intros [b Hb]. rewrite Hb in Hlen. cbn in Hlen. lia.
Qed.

Lemma device_id_iff_two_bytes_witness :
  exists m,
    decode_monome_message [x01; x41] = Ret (Some m) /\
    (m !! "color" = Some GREEN <-> exists b, [x01; x41] = [x01; b]).
Proof.
  eexists. split; [reflexivity|].
  apply (device_id_iff_two_bytes [x01; x41]). reflexivity.
Defined.

(** X14. A frame whose first byte is none of 00, 01, 20, 21 and 03 is
    returned as "Unknown" without a colour, whatever its length; this
    includes opcode 05, the one the handshake sends as its grid-size
    query. *)
Theorem unknown_opcode_is_unknown (a : byte) (rest : list byte) :
  Byte.to_N a ∉ [0x00; 0x01; 0x20; 0x21; 0x03]%N ->
  exists m,
    decode_monome_message (a :: rest) = Ret (Some m) /\
    m !! "decoded" = Some "Unknown" /\ m !! "color" = None.
Proof.
  intros Ha.
  assert (forall k, k ∈ [0x00; 0x01; 0x20; 0x21; 0x03]%N ->
                    (Byte.to_N a =? k)%N = false) as Hk.
  { intros k Hin. apply N.eqb_neq. by intros <-. }
  exists (initial_result (a :: rest) (Byte.to_N a)).
  rewrite initial_decoded, initial_color. split; [|done].
  destruct rest as [|x [|y rest]].
  - apply decode_single.
  - rewrite decode_pair, (Hk 1%N); [done|].
    by repeat first [apply list_elem_of_here | apply list_elem_of_further].
  - rewrite decode_long. cbv zeta.
    rewrite (Hk 0%N), (Hk 1%N), (Hk 32%N), (Hk 33%N), (Hk 3%N);
      first [done
            | by repeat first [apply list_elem_of_here
                              | apply list_elem_of_further]].
Qed.

Lemma unknown_opcode_witness :
  exists m,
    decode_monome_message [x05; x10; x08] = Ret (Some m) /\
    m !! "decoded" = Some "Unknown" /\ m !! "color" = None.
Proof.
  apply (unknown_opcode_is_unknown x05 [x10; x08]).
  intros H. apply list_elem_of_In in H. cbn in H.
  destruct H as [H|[H|[H|[H|[H|[]]]]]]; discriminate H.
Defined.

(** ** The read loop, in every display mode *)

Lemma render_total (hex_mode interpret : bool) (ts : string)
    (a : byte) (rest : list byte) :
  exists line, render hex_mode interpret ts (a :: rest) = Ret line.
Proof.
  destruct hex_mode; [|destruct interpret].
  - unfold render. destruct (format_bytes (a :: rest)). by eexists.
  - destruct (render_interpret ts a rest) as (m & _ & _ & Hr & _). eauto.
  - by eexists.
Qed.

(** The loop as a function of the polls: it returns, and appends one
    rendered line per active poll to the console and to the open log. *)
Lemma read_loop_spec (hex_mode interpret : bool) (polls : list poll) (s : sinks) :
  exists lines,
    read_loop hex_mode interpret polls s =
      Ret {| console := (console s ++ lines)%list;
             log_f := (fun written : list string =>
                         (written ++ logged lines)%list) <$> log_f s |} /\
    Forall2 (fun line p =>
               render hex_mode interpret (timestamp p) (chunk p) = Ret line)
      lines (List.filter active polls).
Proof.
  revert s; induction polls as [|p polls IH]; intros s.
  { exists []. split; [|constructor]. cbn. by rewrite emit_nothing. }
  cbn [read_loop List.filter]. unfold loop_body, active.
  destruct (0 <? in_waiting p)%N; [|apply IH].
  destruct (chunk p) as [|a rest] eqn:Hchunk; [apply IH|].
  rewrite bool_decide_eq_false_2 by done. cbn [negb andb].
  destruct (render_total hex_mode interpret (timestamp p) a rest)
    as [line Hline].
  rewrite Hline. unfold mbind, mret, py_bind, py_ret.
  destruct (IH (emit line s)) as (lines & Hrun & Hlines).
  exists (line :: lines). rewrite Hrun, emit_more. split; [done|].
  constructor; [by rewrite Hchunk | done].
Qed.

(** X15. In every display mode the loop returns without raising, leaves
    what was already printed untouched, and prints exactly one line per
    poll that found bytes waiting and read a non-empty chunk, in poll
    order; idle polls and empty reads print nothing. *)
Theorem read_loop_one_line_per_chunk
    (hex_mode interpret : bool) (polls : list poll) (s : sinks) :
  exists s' lines,
    read_loop hex_mode interpret polls s = Ret s' /\
    console s' = (console s ++ lines)%list /\
    length lines = length (List.filter active polls) /\
    Forall2 (fun line p =>
               render hex_mode interpret (timestamp p) (chunk p) = Ret line)
      lines (List.filter active polls).
Proof.
  destruct (read_loop_spec hex_mode interpret polls s) as (lines & Hrun & Hl).
  eexists _, lines. split; [exact Hrun|]. split; [done|].
  split; [by eapply Forall2_length | done].
Qed.

(** X16. The log file mirrors the console: when a log is open the loop
    appends to it exactly the lines it prints, each followed by a newline,
    in the same order; when no log is open nothing is logged. *)
Theorem log_mirrors_console
    (hex_mode interpret : bool) (polls : list poll) (s : sinks) :
  exists s' lines,
    read_loop hex_mode interpret polls s = Ret s' /\
    console s' = (console s ++ lines)%list /\
    log_f s' =
      match log_f s with
      | Some written => Some (written ++ logged lines)%list
      | None => None
      end.
Proof.
  destruct (read_loop_spec hex_mode interpret polls s) as (lines & Hrun & _).
  eexists _, lines. split; [exact Hrun|]. split; [done|].
  cbn. by destruct (log_f s).
Qed.


(** ** What the hex and raw displays put on the terminal *)

Lemma all_chars_append (P : ascii -> bool) (s t : string) :
  all_chars P (s +:+ t) = all_chars P s && all_chars P t.
Proof.
  induction s as [|c s IH]; [done|].
  rewrite append_cons; cbn [all_chars]. by rewrite IH, andb_assoc.
Qed.

Lemma all_chars_concat (P : ascii -> bool) (sep : string) (l : list string) :
  all_chars P sep = true ->
  Forall (fun s => all_chars P s = true) l ->
  all_chars P (String.concat sep l) = true.
Proof.
  intros Hsep. induction 1 as [|x l Hx Hl IH]; [done|].
  destruct l as [|y l]; [done|].
  change (String.concat sep (x :: y :: l))
    with (x +:+ sep +:+ String.concat sep (y :: l)).
  by rewrite !all_chars_append, Hx, Hsep, IH.
Qed.

Lemma hexlify_byte_printable (b : byte) :
  all_chars printable (hexlify_byte b) = true.
Proof. by destruct b. Qed.

Lemma repr_byte_printable (q : ascii) (b : byte) :
  q = single_quote \/ q = double_quote ->
  all_chars printable (repr_byte q b) = true.
Proof. intros [->| ->]; by destruct b. Qed.

Lemma repr_bytes_printable (data : list byte) :
  all_chars printable (repr_bytes data) = true.
Proof.
  unfold repr_bytes. cbv zeta.
  match goal with
  | |- context [if ?c then double_quote else single_quote] =>
      set (q := if c then double_quote else single_quote);
      assert (q = single_quote \/ q = double_quote) as Hq
        by (subst q; destruct c; auto)
  end.
  clearbody q.
  cbn [all_chars]. rewrite all_chars_append, all_chars_concat; cbn [all_chars].
  - by destruct Hq as [-> | ->].
  - done.
  - apply Forall_forall. intros s [b [-> _]]%list_elem_of_fmap.
    by apply repr_byte_printable.
Qed.

(** X18. Outside interpret mode nothing but printable ASCII follows the
    timestamp: a hex-mode line is "[ts] " and then printable characters
    only, and so is a raw-mode line, whatever bytes were read. *)
Theorem hex_and_raw_lines_printable (ts : string) (data : list byte) :
  (forall interpret : bool,
     exists body,
       render true interpret ts data = Ret ("[" +:+ ts +:+ "] " +:+ body) /\
       all_chars printable body = true) /\
  (exists body,
     render false false ts data = Ret ("[" +:+ ts +:+ "] " +:+ body) /\
     all_chars printable body = true).
Proof.
  split.
  - intros interpret. unfold render.
    destruct (format_bytes data) as [hex_data ascii_data] eqn:Hf.
    exists ("HEX: " +:+ hex_data +:+ " | ASCII: " +:+ ascii_data).
    split; [reflexivity|].
    pose proof (hex_formatted_join data) as Hhex.
    pose proof (readable_printable data) as Hascii.
    rewrite Hf in Hhex, Hascii; cbn [fst snd] in Hhex, Hascii.
    rewrite !all_chars_append, Hascii, Hhex. unfold join.
    rewrite all_chars_concat; [done | done |].
    apply Forall_forall. intros s [b [-> _]]%list_elem_of_fmap.
    apply hexlify_byte_printable.
  - exists (repr_bytes data). split; [reflexivity|].
    apply repr_bytes_printable.
Qed.

(** ** Port listing *)

Lemma print_ports_app (i : nat) (good rest : list port_info)
    (printed : list string) :
  Forall (fun p => listable p = true) good ->
  print_ports i (good ++ rest) printed =
  print_ports (i + length good) rest (printed ++ port_lines i good).
Proof.
  intros Hgood. revert i printed.
  induction Hgood as [|p good Hp _ IH]; intros i printed.
  - cbn. by rewrite Nat.add_0_r, app_nil_r.
  - cbn [app print_ports port_lines length].
    assert (exists vp, vid_pid p = Some vp) as [vp Hvp].
    { unfold listable in Hp. unfold vid_pid.
      destruct (vid p) as [v|]; [|eauto].
      destruct (v =? 0)%N; [eauto|]. destruct (pid p); [eauto | done]. }
    rewrite Hvp, IH. cbn [default]. f_equal; [lia|].
    by rewrite <- app_assoc.
Qed.






(** X20. The listing stops with a [TypeError] at the first entry that has
    a non-zero vendor id but no product id: by then the heading and the
    lines of all earlier entries have been printed, and nothing for the
    offending entry or those after it. *)
Theorem listing_type_error (good rest : list port_info) (bad : port_info) :
  Forall (fun p => listable p = true) good ->
  listable bad = false ->
  list_serial_ports (good ++ bad :: rest) =
  TypeError ((BOLD +:+ "Available serial ports:" +:+ RESET)
               :: port_lines 0 good).
Proof.
  intros Hgood Hbad. unfold list_serial_ports.
  rewrite bool_decide_eq_false_2 by (by destruct good).
  rewrite print_ports_app by done. cbn [print_ports].
  replace (vid_pid bad) with (@None string); [done|].
  unfold listable in Hbad. unfold vid_pid.
  destruct (vid bad) as [v|]; [|done].
  destruct (pid bad); [done|]. by rewrite Hbad.
Qed.

Lemma listing_type_error_witness :
  list_serial_ports
    ([PortInfo "/dev/ttyS0" "n/a" None None]
       ++ PortInfo "/dev/ttyUSB0" "odd" (Some 0x0403%N) None :: []) =
  TypeError [BOLD +:+ "Available serial ports:" +:+ RESET;
             "1. " +:+ GREEN +:+ "/dev/ttyS0" +:+ RESET
               +:+ " - n/a [VID:PID=None]"].
Proof.
  apply (listing_type_error [PortInfo "/dev/ttyS0" "n/a" None None] []
           (PortInfo "/dev/ttyUSB0" "odd" (Some 0x0403%N) None)).
  - repeat constructor.
  - reflexivity.
Defined.






(** ** Whole runs of [log_serial_data], and [main] *)

Lemma execs_app (p q : list stmt) (st : process) :
  execs (p ++ q) st = execs q (execs p st).
Proof. apply fold_left_app. Qed.

Lemma try_body_spec (prog : list stmt) (n : nat) (e : exc) (st : process) :
  Forall (fun c => c <> Fail) prog ->
  try_body prog n e st =
  (if (n <? length prog)%nat then Some e else None, execs (take n prog) st).
Proof.
  intros Hok. revert n st.
  induction Hok as [|c prog Hc _ IH]; intros n st; [by destruct n|].
  destruct n as [|n]; [done|].
  cbn [try_body take length]. rewrite IH.
  change (S n <? S (length prog))%nat with (n <? length prog)%nat.
  by destruct c.
Qed.

Lemma stdout_execs (prog : list stmt) (st : process) :
  stdout (execs prog st) = (stdout st ++ says prog)%list.
Proof.
  revert st; induction prog as [|c prog IH]; intros st.
  - cbn. by rewrite app_nil_r.
  - change (execs (c :: prog) st) with (execs prog (exec c st)).
    rewrite IH. destruct c; cbn; by rewrite <- ?app_assoc.
Qed.

Lemma sent_execs (prog : list stmt) (st : process) :
  sent (execs prog st) = (sent st ++ sends prog)%list.
Proof.
  revert st; induction prog as [|c prog IH]; intros st.
  - cbn. by rewrite app_nil_r.
  - change (execs (c :: prog) st) with (execs prog (exec c st)).
    rewrite IH. destruct c; cbn; by rewrite <- ?app_assoc.
Qed.

Lemma iteration_ok (h i l : bool) (p : poll) :
  Forall (fun c => c <> Fail) (iteration h i l p).
Proof.
  unfold iteration. destruct (0 <? in_waiting p)%N; [|by repeat constructor].
  destruct (chunk p) as [|a rest]; [by repeat constructor|].
  rewrite bool_decide_eq_false_2 by done. cbn [negb].
  destruct (render_total h i (timestamp p) a rest) as [line ->].
  destruct l; by repeat constructor.
Qed.

Lemma preamble_ok (port : string) (baud : Z) (log_file : option string)
    (started : string) :
  Forall (fun c => c <> Fail) (preamble port baud log_file started).
Proof. unfold preamble. destruct (given log_file); by repeat constructor. Qed.

Lemma program_ok (port : string) (baud : Z) (log_file : option string)
    (started : string) (h i : bool) (polls : list poll) :
  Forall (fun c => c <> Fail)
    (preamble port baud log_file started
       ++ concat (map (iteration h i (given log_file)) polls)).
Proof.
  apply Forall_app. split; [apply preamble_ok|].
  apply Forall_concat, Forall_forall.
  intros it [p [-> _]]%list_elem_of_fmap. apply iteration_ok.
Qed.

(** The run, in terms of the statements executed before the fault. *)
Lemma log_serial_data_spec (port : string) (baud : Z) (log_file : option string)
    (h i : bool) (started : string) (polls : list poll) (n : nat) (e : exc) :
  let prog := (preamble port baud log_file started
                 ++ concat (map (iteration h i (given log_file)) polls))%list in
  log_serial_data port baud log_file h i started polls n e =
  if (n <? length prog)%nat
  then (fst (handle e (execs (take n prog) start)),
        finally (snd (handle e (execs (take n prog) start))))
  else (Running, execs (take n prog) start).
Proof.
  intros prog. unfold log_serial_data. fold prog.
  rewrite try_body_spec by apply program_ok.
  destruct (n <? length prog)%nat; [|done].
  by destruct (handle e (execs (take n prog) start)).
Qed.

Lemma log_invariant (prog : list stmt) (st : process) :
  (logfile st = None -> logfile_open st = false) ->
  logfile (execs prog st) = None -> logfile_open (execs prog st) = false.
Proof.
  revert st; induction prog as [|c prog IH]; intros st Hst; [done|].
  change (execs (c :: prog) st) with (execs prog (exec c st)).
  apply IH. destruct c; cbn; try done.
  destruct (logfile st); [done | auto].
Qed.

Lemma ser_open_execs (prog : list stmt) (st : process) :
  ser_open st = Some true -> ser_open (execs prog st) = Some true.
Proof.
  revert st; induction prog as [|c prog IH]; intros st Hst; [done|].
  change (execs (c :: prog) st) with (execs prog (exec c st)).
  apply IH. by destruct c.
Qed.

Lemma take_program (n : nat) (port : string) (baud : Z)
    (log_file : option string) (started : string) (loop : list stmt) :
  exists rest,
    take (S n) (preamble port baud log_file started ++ loop) = Connect :: rest.
Proof. unfold preamble. cbn. eauto. Qed.

(** X22. Once the port has been opened, however the call ends (an
    exception of any kind raised by any later statement) the port is closed
    and no log file is left open, and the output ends with the handler's
    message (if the exception is handled), then "Serial port closed", then
    "Log file closed" when a log file had been opened. *)
Theorem run_closes_everything (port : string) (baud_rate : Z)
    (log_file : option string) (hex_mode interpret : bool) (started : string)
    (polls : list poll) (fault : nat) (e : exc)
    (result : outcome) (st : process) :
  log_serial_data port baud_rate log_file hex_mode interpret started polls
    (S fault) e = (result, st) ->
  result <> Running ->
  ser_open st = Some false /\ logfile_open st = false /\
  exists before,
    stdout st =
      (before ++ closing_lines e
                   (match logfile st with Some _ => true | None => false end))%list.
Proof.
  rewrite log_serial_data_spec. cbv zeta.
  destruct (_ <? _)%nat; [|by intros [= <- _]].
  intros Heq _. apply (f_equal snd) in Heq. cbn [snd] in Heq. subst st.
  destruct (take_program fault port baud_rate log_file started
              (concat (map (iteration hex_mode interpret (given log_file)) polls)))
    as [rest ->].
  change (execs (Connect :: rest) start) with (execs rest (exec Connect start)).
  set (st := execs rest (exec Connect start)).
  assert (ser_open st = Some true) as Hser by (by apply ser_open_execs).
  assert (logfile st = None -> logfile_open st = false) as Hlog
      by (by apply log_invariant).
  destruct st as [out snt so lf lo]; cbn in Hser, Hlog; subst so.
  unfold closing_lines.
  destruct e, lf; cbn; rewrite <- ?app_assoc; eauto.
Qed.

Lemma run_closes_everything_witness :
  exists st,
    log_serial_data "/dev/ttyUSB0" 115200 (Some "grid.log") false true
      "2024-01-01 12:00:00" [] 5 (SerialException "device lost")
      = (Returned, st) /\
    ser_open st = Some false /\ logfile_open st = false.
Proof.
  eexists. split; [reflexivity|].
  edestruct (run_closes_everything "/dev/ttyUSB0" 115200 (Some "grid.log")
               false true "2024-01-01 12:00:00" [] 4
               (SerialException "device lost") Returned _ eq_refl)
    as (H1 & H2 & _); [discriminate|].
  split; assumption.
Defined.

(** X23. When opening the port raises [SerialException], the call prints
    the error line and returns: nothing is sent, no log file is created
    (whatever [log_file] is), and no closing message is printed. *)
Theorem open_failure (port : string) (baud_rate : Z) (log_file : option string)
    (hex_mode interpret : bool) (started : string) (polls : list poll)
    (message : string) :
  log_serial_data port baud_rate log_file hex_mode interpret started polls 0
    (SerialException message) =
  (Returned,
   Process [YELLOW +:+ "Error opening serial port: " +:+ message +:+ RESET]
     [] None None false).
Proof. reflexivity. Qed.

Lemma sends_app (p q : list stmt) : sends (p ++ q) = (sends p ++ sends q)%list.
Proof. apply omap_app. Qed.

Lemma sends_iterations (h i l : bool) (polls : list poll) :
  sends (concat (map (iteration h i l) polls)) = [].
Proof.
  induction polls as [|p polls IH]; [done|].
  cbn [map concat]. rewrite sends_app, IH, app_nil_r.
  unfold iteration. destruct (0 <? in_waiting p)%N; [|done].
  destruct (negb _); [|done].
  destruct (render h i (timestamp p) (chunk p)); [|done]. by destruct l.
Qed.

Lemma sends_preamble (port : string) (baud : Z) (log_file : option string)
    (started : string) :
  sends (preamble port baud log_file started) = handshake.
Proof. unfold preamble. by destruct (given log_file). Qed.

Lemma sent_handle_finally (e : exc) (st : process) :
  sent (finally (snd (handle e st))) = sent st.
Proof.
  destruct st as [out snt [[|]|] [lf|] lo], e; reflexivity.
Qed.

(** X24. What has been sent to the port is at every moment a prefix of
    the seven handshake commands 00, 01, 05, 20 01, 21 01, 00 01, 01 01 in
    that order; once the loop has been entered it is exactly these seven,
    in every display mode and whatever is read: the loop never writes to
    the port. *)
Theorem handshake_sent (port : string) (baud_rate : Z)
    (log_file : option string) (hex_mode interpret : bool) (started : string)
    (polls : list poll) (fault : nat) (e : exc) :
  sent (snd (log_serial_data port baud_rate log_file hex_mode interpret
               started polls fault e)) `prefix_of` handshake /\
  ((length (preamble port baud_rate log_file started) <= fault)%nat ->
   sent (snd (log_serial_data port baud_rate log_file hex_mode interpret
                started polls fault e)) = handshake).
Proof.
  rewrite log_serial_data_spec. cbv zeta.
  set (pre := preamble port baud_rate log_file started).
  set (loop := concat (map (iteration hex_mode interpret (given log_file)) polls)).
  assert (sent (snd (if (fault <? length (pre ++ loop))%nat
                     then (fst (handle e (execs (take fault (pre ++ loop)) start)),
                           finally (snd (handle e
                                      (execs (take fault (pre ++ loop)) start))))
                     else (Running, execs (take fault (pre ++ loop)) start)))
          = sends (take fault (pre ++ loop))) as ->.
  { destruct (_ <? _)%nat; cbn [snd];
      rewrite ?sent_handle_finally; by rewrite sent_execs. }
  split.
  - exists (sends (drop fault (pre ++ loop))).
    rewrite <- sends_app, take_drop, sends_app.
    subst pre loop. by rewrite sends_preamble, sends_iterations, app_nil_r.
  - intros Hlen. rewrite take_app_ge by done. rewrite sends_app.
    assert (sends (take (fault - length pre) loop) = []) as ->.
    { assert (sends (take (fault - length pre) loop)
                `prefix_of` sends loop) as [k Hk].
      { exists (sends (drop (fault - length pre) loop)).
        by rewrite <- sends_app, take_drop. }
      subst loop. rewrite sends_iterations in Hk.
      symmetry in Hk. by apply app_eq_nil in Hk as [-> _]. }
    subst pre. by rewrite sends_preamble, app_nil_r.
Qed.

Lemma says_app (p q : list stmt) : says (p ++ q) = (says p ++ says q)%list.
Proof. apply omap_app. Qed.

Lemma writes_app (p q : list stmt) : writes (p ++ q) = (writes p ++ writes q)%list.
Proof. apply omap_app. Qed.


Lemma iteration_lagging (h i : bool) (p : poll) (k : nat) :
  lagging (take k (iteration h i true p)) /\
  writes (iteration h i true p) = logged (says (iteration h i true p)).
Proof.
  unfold iteration. destruct (0 <? in_waiting p)%N.
  2:{ split; [|done]. left. by destruct k as [|[|[|k]]]. }
  destruct (negb _).
  2:{ split; [|done]. left. by destruct k as [|[|[|[|k]]]]. }
  destruct (render h i (timestamp p) (chunk p)) as [output|err].
  2:{ split; [|done]. left. by destruct k as [|[|[|[|[|[|k]]]]]]. }
  split; [|done].
  destruct k as [|[|[|[|[|k]]]]]; try (by left).
  - right. by exists [], output.
  - left. destruct k as [|[|k]]; cbn [take app]; rewrite ?take_nil; reflexivity.
Qed.

Lemma iterations_lagging (h i : bool) (polls : list poll) (k : nat) :
  lagging (take k (concat (map (iteration h i true) polls))).
Proof.
  revert k; induction polls as [|p polls IH]; intros k.
  { left. by destruct k. }
  cbn [map concat].
  destruct (decide (k <= length (iteration h i true p))%nat) as [Hk|Hk].
  { rewrite take_app_le by done. apply iteration_lagging. }
  rewrite take_app_ge by lia.
  destruct (iteration_lagging h i p 0) as [_ Hfull].
  destruct (IH (k - length (iteration h i true p))%nat)
    as [Hall|(lines & last & Hs & Hw)].
  - left. rewrite writes_app, says_app, Hfull, Hall.
    unfold logged. by rewrite map_app.
  - right. exists (says (iteration h i true p) ++ lines)%list, last.
    rewrite writes_app, says_app, Hfull, Hs, Hw.
    unfold logged. by rewrite map_app, app_assoc.
Qed.

Lemma logfile_execs (prog : list stmt) (st : process) (written : list string) :
  Forall (fun c => c <> LogOpen) prog ->
  logfile st = Some written ->
  logfile (execs prog st) = Some (written ++ writes prog)%list.
Proof.
  intros Hok. revert st written.
  induction Hok as [|c prog Hc _ IH]; intros st written Hst.
  - cbn. by rewrite app_nil_r.
  - change (execs (c :: prog) st) with (execs prog (exec c st)).
    destruct c; try done;
      try (by change (writes (?c :: prog)) with (writes prog); apply IH).
    change (writes (LogWrite text :: prog)) with (text :: writes prog).
    rewrite (IH _ (written ++ [text])%list).
    + by rewrite <- app_assoc.
    + cbn. by rewrite Hst.
Qed.

Lemma iterations_no_open (h i l : bool) (polls : list poll) :
  Forall (fun c => c <> LogOpen) (concat (map (iteration h i l) polls)).
Proof.
  apply Forall_concat, Forall_forall.
  intros it [p [-> _]]%list_elem_of_fmap. unfold iteration.
  destruct (0 <? in_waiting p)%N; [|by repeat constructor].
  destruct (negb _); [|by repeat constructor].
  destruct (render h i (timestamp p) (chunk p)); [|by repeat constructor].
  destruct l; by repeat constructor.
Qed.

(** X25. With a log file, when a run that has entered the loop ends, the
    log holds its two header texts followed by the lines the loop printed,
    each with a newline, in order: all of them, or all but the last one
    (when the exception arrived between printing a line and logging it). *)
Theorem log_lags_by_one (port : string) (baud_rate : Z) (log_path : string)
    (hex_mode interpret : bool) (started : string) (polls : list poll)
    (fault : nat) (e : exc) (result : outcome) (st : process) :
  given (Some log_path) = true ->
  (length (preamble port baud_rate (Some log_path) started) <= fault)%nat ->
  log_serial_data port baud_rate (Some log_path) hex_mode interpret started
    polls fault e = (result, st) ->
  result <> Running ->
  exists lines kept,
    stdout st =
      (says (preamble port baud_rate (Some log_path) started)
         ++ lines ++ closing_lines e true)%list /\
    logfile st =
      Some (["Monome Grid Serial Log - Started at " +:+ started +:+ NL;
             "Port: " +:+ port +:+ ", Baud Rate: " +:+ str_int baud_rate
               +:+ NL +:+ NL] ++ logged kept)%list /\
    (lines = kept \/ exists last, lines = (kept ++ [last])%list).
Proof.
  intros Hgiven Hlen. rewrite log_serial_data_spec. cbv zeta.
  rewrite Hgiven.
  set (pre := preamble port baud_rate (Some log_path) started) in *.
  set (loop := concat (map (iteration hex_mode interpret true) polls)).
  destruct (_ <? _)%nat; [|by intros [= <- _]].
  intros Heq _. apply (f_equal snd) in Heq. cbn [snd] in Heq. subst st.
  rewrite take_app_ge by done. rewrite execs_app.
  set (t := take (fault - length pre) loop).
  assert (exists out,
            execs pre start =
            Process (says pre) out (Some true)
              (Some ["Monome Grid Serial Log - Started at " +:+ started +:+ NL;
                     "Port: " +:+ port +:+ ", Baud Rate: "
                       +:+ str_int baud_rate +:+ NL +:+ NL]) true)
    as [out Hpre].
  { subst pre. unfold preamble. rewrite Hgiven. by eexists. }
  pose proof (stdout_execs t (execs pre start)) as Hout.
  pose proof (ser_open_execs t (execs pre start)) as Hser.
  pose proof (logfile_execs t (execs pre start)) as Hlog.
  rewrite Hpre in Hout, Hser, Hlog |- *. cbn in Hout, Hser, Hlog.
  specialize (Hser eq_refl).
  specialize (Hlog _ (Forall_take _ _ _ (iterations_no_open _ _ _ _)) eq_refl).
  set (st := execs t _) in *.
  assert (exists lines kept,
            says t = lines /\ writes t = logged kept /\
            (lines = kept \/ exists last, lines = (kept ++ [last])%list))
    as (lines & kept & Hs & Hw & Hlag).
  { destruct (iterations_lagging hex_mode interpret polls (fault - length pre))
      as [Hall|(l' & last & Hs & Hw)].
    - exists (says t), (says t). eauto.
    - exists (l' ++ [last])%list, l'. eauto. }
  exists lines, kept. rewrite Hs in Hout. rewrite Hw in Hlog.
  destruct st as [o s so lf lo]. cbn in Hout, Hser, Hlog. subst o so lf.
  split; [|split; [|done]].
  - unfold closing_lines. destruct e; cbn; by rewrite <- ?app_assoc.
  - by destruct e.
Qed.

Lemma log_lags_by_one_witness :
  exists lines kept,
    logfile
      (snd (log_serial_data "/dev/ttyUSB0" 115200 (Some "grid.log") false true
              "2024-01-01 12:00:00" [Poll 3 [x03; x10; x08] "12:00:01.000"]
              30 KeyboardInterrupt)) =
      Some (["Monome Grid Serial Log - Started at 2024-01-01 12:00:00" +:+ NL;
             "Port: /dev/ttyUSB0, Baud Rate: 115200" +:+ NL +:+ NL]
              ++ logged kept)%list /\
    (lines = kept \/ exists last, lines = (kept ++ [last])%list).
Proof.
  destruct (log_lags_by_one "/dev/ttyUSB0" 115200 "grid.log" false true
              "2024-01-01 12:00:00" [Poll 3 [x03; x10; x08] "12:00:01.000"]
              30 KeyboardInterrupt Returned
              (snd (log_serial_data "/dev/ttyUSB0" 115200 (Some "grid.log")
                      false true "2024-01-01 12:00:00"
                      [Poll 3 [x03; x10; x08] "12:00:01.000"]
                      30 KeyboardInterrupt)))
    as (lines & kept & _ & Hlog & Hlag).
  - reflexivity.
  - cbn. lia.
  - vm_compute. reflexivity.
  - discriminate.
  - exists lines, kept. split; [exact Hlog | exact Hlag].
Defined.

Lemma iteration_hex (i i' l : bool) (p : poll) :
  iteration true i l p = iteration true i' l p.
Proof. reflexivity. Qed.

(** X26. The hex flag takes precedence over the raw flag: with [--hex]
    given, [main] behaves the same whether or not [--raw] is given too. *)
Theorem hex_overrides_raw (port : option string) (baud : Z) (listing : bool)
    (output : option string) (raw raw' : bool) (ports : list port_info)
    (started : string) (polls : list poll) (fault : nat) (e : exc) :
  main (Arguments port baud listing output true raw) ports started polls
    fault e =
  main (Arguments port baud listing output true raw') ports started polls
    fault e.
Proof.
  unfold main. cbn [args_list args_port args_hex args_raw args_baud args_output].
  destruct listing; [done|]. destruct (negb (given port)); [done|].
  unfold log_serial_data.
  by rewrite (map_ext _ _ (fun p => iteration_hex (negb raw) (negb raw')
                                      (given output) p)).
Qed.

(** ** Rendered lines keep the bytes *)

(** X27. A line rendered in interpret or hex mode carries the chunk
    losslessly: the interpret-mode line ends with " [" raw_hex "]" and the
    hex-mode line is "[ts] HEX: " hex " | ASCII: " shadow, where reading the
    hex octets back gives exactly the bytes read (and the shadow has one
    character per byte). *)
Theorem rendered_lines_lossless (ts : string) (a : byte) (rest : list byte) :
  (exists text raw,
     render false true ts (a :: rest) =
       Ret ("[" +:+ ts +:+ "] " +:+ text +:+ " [" +:+ raw +:+ "]") /\
     parse_octets true raw = Some (a :: rest)) /\
  (forall interpret : bool,
     exists hex_data ascii_data,
       render true interpret ts (a :: rest) =
         Ret ("[" +:+ ts +:+ "] HEX: " +:+ hex_data +:+ " | ASCII: "
                +:+ ascii_data) /\
       parse_octets false hex_data = Some (a :: rest) /\
       String.length ascii_data = length (a :: rest)).
Proof.
  split.
  - destruct (render_interpret ts a rest) as (m & Hm & _ & Hline & _).
    destruct (decode_frame_fields a rest) as (m' & Hm' & Hraw & _).
    rewrite Hm in Hm'. injection Hm' as <-.
    exists (get m "color" RESET +:+ default "" (m !! "decoded") +:+ RESET),
      (join " " (map (fun b => format_02X (Byte.to_N b)) (a :: rest))).
    split.
    + rewrite Hline. unfold interpreted_line. rewrite Hraw. cbn [default].
      by rewrite !append_assoc.
    + apply (parse_octets_join true (fun b => format_02X (Byte.to_N b))).
      apply format_02X_value.
  - intros interpret. unfold render.
    pose proof (hex_formatted_join (a :: rest)) as Hhex.
    pose proof (readable_shadow (a :: rest)) as Hshadow.
    destruct (format_bytes (a :: rest)) as [hex_data ascii_data].
    cbn [fst snd] in Hhex, Hshadow. subst hex_data ascii_data.
    do 2 eexists. split; [reflexivity|]. split.
    + apply parse_octets_join, hexlify_byte_value.
    + by rewrite length_string_of_list, length_map.
Qed.
